(** * SharpPointBroker: order registry, transitions and notification queue

    A shallow embedding of [sptrader/spbroker.py].  The broker is a Python
    object whose methods mutate its attributes and the order objects it
    holds references to, and which may raise.  Both are kept explicit:

    - a method is a function [Broker -> result A * Broker]; the state that
      comes back with [Raise e] is the state the exception leaves behind;
    - order objects live in an object store ([heap]) and are named by their
      address, so that the registry, the [submitted] deque and the caller all
      alias one order, while [clone()] allocates a new object; which objects
      a clone shares with its original is recorded beside the broker, in
      [World].

    What the module imports ([backtrader]'s [Order], [Position] and
    [BrokerBase], and the store [spstore.SharpPointStore]) is an interface,
    [Collaborators]; the broker is written against the interface and a model
    of [backtrader]'s order class instantiates it for concrete runs.

    Attributes no modelled method reads ([p.dataname], [p.eosbar], [p.filler],
    [f]) are left out of the state. *)

From Stdlib Require Import Floats ZArith.
From stdpp Require Import gmap strings list.

Open Scope Z_scope.

(** ** Exceptions and results *)

(** The Python exceptions the modelled code can raise.  [Dangling] is not a
    Python exception: it marks the use of an address outside the object
    store, which no well-formed state produces.  [External] stands for
    whatever a collaborator raises of its own. *)
Inductive exn : Type :=
| KeyError
| TypeError
| AttributeError
| IndexError
| Dangling
| External (msg : string).

Inductive result (A : Type) : Type :=
| Ok (a : A)
| Raise (e : exn).
Arguments Ok {A} a.
Arguments Raise {A} e.

Definition is_ok {A} (r : result A) : bool :=
  match r with Ok _ => true | Raise _ => false end.

(** ** Orders, as [backtrader.order] lays them out *)

(** [Order.Created .. Order.Rejected = range(9)]. *)
Inductive Status : Type :=
| Created | Submitted | Accepted | Partial | Completed
| Canceled | Expired | Margin | Rejected.

(** [Cancelled = Canceled] is the alias the broker's [cancel] reads. *)
Definition Cancelled : Status := Canceled.

#[global] Instance Status_eq_dec : EqDecision Status.
Proof. solve_decision. Defined.

(** The terminal states of the specification's state machine. *)
Definition terminal (s : Status) : bool :=
  match s with
  | Completed | Canceled | Rejected | Expired => true
  | _ => false
  end.

Inductive OrdType : Type := Buy | Sell.

Inductive ExecType : Type := Market | Close | Limit | Stop | StopLimit.

(** The keyword arguments [buy] and [sell] hand to the order constructor. *)
Record OrderParams : Type := {
  p_owner : nat;
  p_data : nat;
  p_size : float;
  p_price : option float;
  p_pricelimit : option float;
  p_exectype : option ExecType;
  p_valid : option float;
  p_tradeid : Z
}.

(** [order.executed]: what has been filled so far. *)
Record OrderData : Type := {
  od_dt : float;
  od_size : float;
  od_remsize : float;
  od_price : float
}.

Record Order : Type := {
  ref : Z;
  ordtype : OrdType;
  params : OrderParams;
  size : float;
  status : Status;
  info : list (string * string);
  executed : OrderData;
  has_broker : bool
}.

Definition data (o : Order) : nat := p_data (params o).

Definition set_status (s : Status) (o : Order) : Order :=
  {| ref := ref o; ordtype := ordtype o; params := params o; size := size o;
     status := s; info := info o; executed := executed o;
     has_broker := has_broker o |}.

Definition set_info (i : list (string * string)) (o : Order) : Order :=
  {| ref := ref o; ordtype := ordtype o; params := params o; size := size o;
     status := status o; info := i; executed := executed o;
     has_broker := has_broker o |}.

Definition set_executed (e : OrderData) (o : Order) : Order :=
  {| ref := ref o; ordtype := ordtype o; params := params o; size := size o;
     status := status o; info := info o; executed := e;
     has_broker := has_broker o |}.

Definition set_has_broker (h : bool) (o : Order) : Order :=
  {| ref := ref o; ordtype := ordtype o; params := params o; size := size o;
     status := status o; info := info o; executed := executed o;
     has_broker := h |}.

(** [backtrader.position.Position]: signed size and average price. *)
Record Position : Type := {
  pos_size : float;
  pos_price : float
}.

(** [Position()] as [collections.defaultdict(Position)] builds it. *)
Definition Position_new : Position := {| pos_size := 0; pos_price := 0 |}.

(** The thirteen arguments of [order.execute]. *)
Record ExecArgs : Type := {
  x_dt : float; x_size : float; x_price : float;
  x_closed : float; x_closedvalue : float; x_closedcomm : float;
  x_opened : float; x_openedvalue : float; x_openedcomm : float;
  x_margin : float; x_pnl : float;
  x_psize : float; x_pprice : float
}.

(** Python truth value of a float: everything but zero. *)
Definition truthy (x : float) : bool := negb (PrimFloat.eqb x 0).

(** ** The imported interface *)

(** A method of an order object: it may mutate the object and may raise; the
    order that comes back is the object as the call left it. *)
Definition method : Type := Order -> result unit * Order.

(** The flag of [order_submit] .. [order_expire] says whether the call site
    passes the broker ([order.submit(self)]) or nothing ([order.accept()]). *)
Class Collaborators : Type := {
  (* backtrader.order *)
  new_order : OrdType -> OrderParams -> Z -> result Order;
  order_addinfo : list (string * string) -> method;
  order_submit : bool -> method;
  order_accept : bool -> method;
  order_reject : bool -> method;
  order_cancel_m : bool -> method;
  order_expire : bool -> method;
  order_execute : ExecArgs -> method;
  order_partial : method;
  order_completed : method;
  order_clone : Order -> Order;
  (* backtrader.position, the data feed, bt.BrokerBase *)
  position_update : float -> float -> Position ->
                    (float * float * float * float) * Position;
  data_datetime0 : nat -> result float;
  getcommissioninfo : nat -> result nat;
  (* spstore.SharpPointStore *)
  Store : Type;
  store_order_create : nat -> Order -> Store -> result (option nat) * Store;
  store_order_cancel : nat -> Order -> Store -> result (option nat) * Store
}.

(** ** The broker *)

Section BrokerModel.

Context {C : Collaborators}.

(** The broker's attributes, together with the two pieces of the Python
    process they refer to: the object store of orders and the class-wide
    counter [Order.refbasis].  [notifs] holds addresses of clones, or [None]
    for the boundary marker that [next] appends. *)
Record Broker : Type := {
  heap : list Order;
  refbasis : Z;
  startingcash : float;
  cash : float;
  p_cash : float;
  p_checksubmit : bool;
  orders : gmap Z nat;
  pending : list nat;
  positions : gmap nat Position;
  notifs : list (option nat);
  submitted : list nat;
  o : Store
}.

Definition set_heap (h : list Order) (b : Broker) : Broker :=
  {| heap := h; refbasis := refbasis b; startingcash := startingcash b;
     cash := cash b; p_cash := p_cash b; p_checksubmit := p_checksubmit b;
     orders := orders b; pending := pending b; positions := positions b;
     notifs := notifs b; submitted := submitted b; o := o b |}.

Definition set_refbasis (r : Z) (b : Broker) : Broker :=
  {| heap := heap b; refbasis := r; startingcash := startingcash b;
     cash := cash b; p_cash := p_cash b; p_checksubmit := p_checksubmit b;
     orders := orders b; pending := pending b; positions := positions b;
     notifs := notifs b; submitted := submitted b; o := o b |}.

Definition set_all_cash (c : float) (b : Broker) : Broker :=
  {| heap := heap b; refbasis := refbasis b; startingcash := c;
     cash := c; p_cash := c; p_checksubmit := p_checksubmit b;
     orders := orders b; pending := pending b; positions := positions b;
     notifs := notifs b; submitted := submitted b; o := o b |}.

Definition set_p_checksubmit (c : bool) (b : Broker) : Broker :=
  {| heap := heap b; refbasis := refbasis b; startingcash := startingcash b;
     cash := cash b; p_cash := p_cash b; p_checksubmit := c;
     orders := orders b; pending := pending b; positions := positions b;
     notifs := notifs b; submitted := submitted b; o := o b |}.

Definition set_orders (m : gmap Z nat) (b : Broker) : Broker :=
  {| heap := heap b; refbasis := refbasis b; startingcash := startingcash b;
     cash := cash b; p_cash := p_cash b; p_checksubmit := p_checksubmit b;
     orders := m; pending := pending b; positions := positions b;
     notifs := notifs b; submitted := submitted b; o := o b |}.

Definition set_positions (m : gmap nat Position) (b : Broker) : Broker :=
  {| heap := heap b; refbasis := refbasis b; startingcash := startingcash b;
     cash := cash b; p_cash := p_cash b; p_checksubmit := p_checksubmit b;
     orders := orders b; pending := pending b; positions := m;
     notifs := notifs b; submitted := submitted b; o := o b |}.

Definition set_notifs (n : list (option nat)) (b : Broker) : Broker :=
  {| heap := heap b; refbasis := refbasis b; startingcash := startingcash b;
     cash := cash b; p_cash := p_cash b; p_checksubmit := p_checksubmit b;
     orders := orders b; pending := pending b; positions := positions b;
     notifs := n; submitted := submitted b; o := o b |}.

Definition set_submitted (s : list nat) (b : Broker) : Broker :=
  {| heap := heap b; refbasis := refbasis b; startingcash := startingcash b;
     cash := cash b; p_cash := p_cash b; p_checksubmit := p_checksubmit b;
     orders := orders b; pending := pending b; positions := positions b;
     notifs := notifs b; submitted := s; o := o b |}.

Definition set_o (s : Store) (b : Broker) : Broker :=
  {| heap := heap b; refbasis := refbasis b; startingcash := startingcash b;
     cash := cash b; p_cash := p_cash b; p_checksubmit := p_checksubmit b;
     orders := orders b; pending := pending b; positions := positions b;
     notifs := notifs b; submitted := submitted b; o := s |}.

(** *** Methods as state transformers that may raise *)

Definition M (A : Type) : Type := Broker -> result A * Broker.

Definition ret {A} (a : A) : M A := fun b => (Ok a, b).

Definition raise {A} (e : exn) : M A := fun b => (Raise e, b).

Definition bind {A B} (m : M A) (k : A -> M B) : M B :=
  fun b =>
    match m b with
    | (Ok a, b') => k a b'
    | (Raise e, b') => (Raise e, b')
    end.

Definition lift {A} (r : result A) : M A := fun b => (r, b).

Definition modify (f : Broker -> Broker) : M unit := fun b => (Ok tt, f b).

End BrokerModel.

Declare Scope py_scope.
Delimit Scope py_scope with py.
Notation "x <- m ;; k" := (bind m (fun x => k))
  (at level 100, m at next level, right associativity) : py_scope.
Notation "m ;;; k" := (bind m (fun _ => k))
  (at level 100, right associativity) : py_scope.
Open Scope py_scope.

Section BrokerOps.

Context {C : Collaborators}.

(** *** Object store and registry access *)

(** Attribute access through a reference. *)
Definition deref (l : nat) : M Order :=
  fun b =>
    match heap b !! l with
    | Some ord => (Ok ord, b)
    | None => (Raise Dangling, b)
    end.

(** A new object; its address is the first one not in use. *)
Definition alloc (ord : Order) : M nat :=
  fun b => (Ok (length (heap b)), set_heap (heap b ++ [ord]) b).

(** [obj.meth(...)]: the object at [l] is replaced by what the method left,
    also when the method raised. *)
Definition call_method (m : method) (l : nat) : M unit :=
  ord <- deref l ;;
  fun b => let '(r, ord') := m ord in (r, set_heap (<[l := ord']> (heap b)) b).

(** [self.orders[oref]]: [KeyError] when the key is absent. *)
Definition orders_getitem (oref : Z) : M nat :=
  fun b =>
    match orders b !! oref with
    | Some l => (Ok l, b)
    | None => (Raise KeyError, b)
    end.

(** [self.orders[oref] = order]. *)
Definition orders_setitem (oref : Z) (l : nat) : M unit :=
  modify (fun b => set_orders (<[oref := l]> (orders b)) b).

(** [self.orders.append]: an [OrderedDict] has no such attribute. *)
Definition orders_append (l : nat) : M unit := raise AttributeError.

(** [next(Order.refbasis)], drawn by the order constructor. *)
Definition next_ref : M Z :=
  fun b => (Ok (refbasis b), set_refbasis (refbasis b + 1) b).

(** A call into the store, which keeps its own state. *)
Definition store_call
    (f : nat -> Order -> Store -> result (option nat) * Store) (l : nat)
    : M (option nat) :=
  ord <- deref l ;;
  fun b => let '(r, s') := f l ord (o b) in (r, set_o s' b).

(** Binding the keywords of a call to the formal parameters of a [def]
    without [**kwargs]: a keyword that names no parameter is a [TypeError],
    raised before the body runs. *)
Definition call_with_keywords {A} (formals keywords : list string)
    (body : M A) : M A :=
  if forallb (fun k => existsb (String.eqb k) formals) keywords
  then body
  else raise TypeError.

(** *** Cash and value *)

Definition get_cash : M float := fun b => (Ok (cash b), b).

Definition set_cash (c : float) : M unit := modify (set_all_cash c).

Definition get_value (datas : option (list nat)) : M float := ret 0%float.

Definition set_checksubmit (c : bool) : M unit := modify (set_p_checksubmit c).

(** *** Positions *)

(** [self.positions[data]] on a [defaultdict(Position)]: a key that is
    missing is first bound to [Position()]. *)
Definition getposition (d : nat) : M Position :=
  fun b =>
    match positions b !! d with
    | Some p => (Ok p, b)
    | None => (Ok Position_new,
               set_positions (<[d := Position_new]> (positions b)) b)
    end.

(** [def getposition(self, data)], called with the given keywords besides
    the positional [data]. *)
Definition getposition_call (d : nat) (keywords : list string) : M Position :=
  call_with_keywords ["data"%string] keywords (getposition d).

(** [pos.update(size, price)] on the position object of [d]. *)
Definition pos_update (d : nat) (sz price : float)
    : M (float * float * float * float) :=
  fun b =>
    match positions b !! d with
    | Some p =>
        let '(r, p') := position_update sz price p in
        (Ok r, set_positions (<[d := p']> (positions b)) b)
    | None => (Raise KeyError, b)
    end.

(** *** Notifications *)

(** [self.notifs.append(order.clone())]. *)
Definition notify (l : nat) : M unit :=
  ord <- deref l ;;
  l' <- alloc (order_clone ord) ;;
  modify (fun b => set_notifs (notifs b ++ [Some l']) b).

(** The [get_notification] that is in force: the second [def] of the class
    body rebinds the name. *)
Definition get_notification : M (option nat) :=
  fun b =>
    match notifs b with
    | [] => (Ok None, b)
    | x :: rest => (Ok x, set_notifs rest b)
    end.

(** [deque.popleft()]. *)
Definition notifs_popleft : M (option nat) :=
  fun b =>
    match notifs b with
    | [] => (Raise IndexError, b)
    | x :: rest => (Ok x, set_notifs rest b)
    end.

(** The first [def get_notification], shadowed by the second:
    [try: return self.notifs.popleft() / except IndexError: pass], then
    [return None]. *)
Definition get_notification_first : M (option nat) :=
  fun b =>
    match notifs_popleft b with
    | (Raise IndexError, b') => (Ok None, b')
    | other => other
    end.

(** [self.notifs.append(None)]. *)
Definition next : M unit :=
  modify (fun b => set_notifs (notifs b ++ [None]) b).

(** *** Registry and lifecycle *)

Definition orderstatus (l : nat) : M Status :=
  order <- deref l ;;
  ol <- orders_getitem (ref order) ;;
  o' <- deref ol ;;
  ret (status o').

(** The [else] branch calls [self.submit_accept], an attribute that neither
    the class nor [bt.BrokerBase] defines. *)
Definition submit (l : nat) : M nat :=
  cs <- (fun b => (Ok (p_checksubmit b), b)) ;;
  (if cs : bool
   then
     call_method (order_submit false) l ;;;
     modify (fun b => set_submitted (submitted b ++ [l]) b) ;;;
     orders_append l ;;;
     notify l
   else raise AttributeError) ;;;
  ret l.

Definition _submit (oref : Z) : M unit :=
  l <- orders_getitem oref ;;
  call_method (order_submit true) l ;;;
  notify l.

Definition _reject (oref : Z) : M unit :=
  l <- orders_getitem oref ;;
  call_method (order_reject true) l ;;;
  notify l.

Definition _accept (oref : Z) : M unit :=
  l <- orders_getitem oref ;;
  call_method (order_accept false) l ;;;
  notify l.

Definition _cancel (oref : Z) : M unit :=
  l <- orders_getitem oref ;;
  call_method (order_cancel_m true) l ;;;
  notify l.

Definition _expire (oref : Z) : M unit :=
  l <- orders_getitem oref ;;
  call_method (order_expire true) l ;;;
  notify l.

(** [_fill], from [psize, pprice, opened, closed = pos.update(size, price)]
    to the end: the fill is booked on the position and on the order [l],
    with every value, commission and profit figure set to [0.0], the order
    becomes [Partial] or [Completed] by its remaining size, and a snapshot
    is queued. *)
Definition _fill_booking (l d : nat) (sz price : float) : M unit :=
  upd <- pos_update d sz price ;;
  let '(psize, pprice, opened, closed) := upd in
  comminfo <- lift (getcommissioninfo d) ;;
  let closedvalue := 0%float in
  let closedcomm := 0%float in
  let openedvalue := 0%float in
  let openedcomm := 0%float in
  let margin := 0%float in
  let pnl := 0%float in
  dt <- lift (data_datetime0 d) ;;
  call_method
    (order_execute
       {| x_dt := dt; x_size := sz; x_price := price;
          x_closed := closed; x_closedvalue := closedvalue;
          x_closedcomm := closedcomm;
          x_opened := opened; x_openedvalue := openedvalue;
          x_openedcomm := openedcomm;
          x_margin := margin; x_pnl := pnl;
          x_psize := psize; x_pprice := pprice |}) l ;;;
  order' <- deref l ;;
  (if truthy (od_remsize (executed order'))
   then call_method order_partial l
   else call_method order_completed l) ;;;
  notify l.

(** [_fill]: the order is looked up, then the position of its data with
    [self.getposition(data, clone=False)]; the rest is [_fill_booking]. *)
Definition _fill (oref : Z) (sz price : float) : M unit :=
  l <- orders_getitem oref ;;
  order <- deref l ;;
  let d := data order in
  pos <- getposition_call d ["clone"%string] ;;
  _fill_booking l d sz price.

(** [BuyOrder(...)] / [SellOrder(...)], [order.addinfo] with the extra keywords,
    registration, hand-over to the store. *)
Definition place (side : OrdType) (p : OrderParams)
    (kwargs : list (string * string)) : M (option nat) :=
  r <- next_ref ;;
  order <- lift (new_order side p r) ;;
  l <- alloc order ;;
  call_method (order_addinfo kwargs) l ;;;
  order' <- deref l ;;
  orders_setitem (ref order') l ;;;
  store_call store_order_create l.

Definition buy (p : OrderParams) (kwargs : list (string * string))
    : M (option nat) :=
  place Buy p kwargs.

Definition sell (p : OrderParams) (kwargs : list (string * string))
    : M (option nat) :=
  place Sell p kwargs.

Definition cancel (l : nat) : M (option nat) :=
  order <- deref l ;;
  o' <- orders_getitem (ref order) ;;
  if bool_decide (status order = Cancelled)
  then ret None
  else store_call store_order_cancel l.

(** *** Runs *)

(** The callbacks of the store into the broker. *)
Inductive transition : Type :=
| TSubmit | TAccept | TReject | TCancel | TExpire
| TFill (sz price : float).

Definition run_transition (t : transition) (oref : Z) : M unit :=
  match t with
  | TSubmit => _submit oref
  | TAccept => _accept oref
  | TReject => _reject oref
  | TCancel => _cancel oref
  | TExpire => _expire oref
  | TFill sz price => _fill oref sz price
  end.

(** The shape the five status callbacks share: look the order up, run one
    of its methods, queue a snapshot. *)
Definition status_callback (m : method) (oref : Z) : M unit :=
  l <- orders_getitem oref ;;
  call_method m l ;;;
  notify l.

(** The order method behind each of the five status callbacks. *)
Definition transition_method (t : transition) : option method :=
  match t with
  | TSubmit => Some (order_submit true)
  | TAccept => Some (order_accept false)
  | TReject => Some (order_reject true)
  | TCancel => Some (order_cancel_m true)
  | TExpire => Some (order_expire true)
  | TFill _ _ => None
  end.

(** A sequence of fills of one order, each call made in the state the call
    before left, whether it returned or raised. *)
Definition run_fills (oref : Z) (fills : list (float * float)) (b : Broker)
    : Broker :=
  fold_left (fun b f => snd (_fill oref (fst f) (snd f) b)) fills b.

(** [n] calls of [get_notification] in a row: what each returned, and the
    state after the last. *)
Fixpoint poll (n : nat) (b : Broker) : list (result (option nat)) * Broker :=
  match n with
  | O => ([], b)
  | S n' =>
      let '(r, b1) := get_notification b in
      let '(rs, b2) := poll n' b1 in
      (r :: rs, b2)
  end.

(** [keeps f m]: whatever [m] does and however it ends, the reading [f] of
    the state is the same afterwards. *)
Definition keeps {X A} (f : Broker -> X) (m : M A) : Prop :=
  forall b, f (snd (m b)) = f b.

(** The state [__init__] builds. *)
Definition init (c : float) (checksubmit : bool) (s : Store) : Broker :=
  {| heap := []; refbasis := 1; startingcash := c; cash := c; p_cash := c;
     p_checksubmit := checksubmit; orders := ∅; pending := [];
     positions := ∅; notifs := []; submitted := []; o := s |}.

End BrokerOps.

(** ** The specification's wording, for comparison with the code *)

Module Spec.

(** "Cash after a sequence of fills equals starting cash plus sum of (signed
    proceeds - commission) over all fills": a fill of signed size [sz] at
    [price] buys when [sz] is positive, so it brings in [-(sz * price)]. *)
Definition net_cash_effect (sz price commission : float) : float :=
  (- (sz * price) - commission)%float.

Definition cash_after_fills (start : float)
    (fills : list (float * float * float)) : float :=
  fold_left
    (fun c f => (c + net_cash_effect (fst (fst f)) (snd (fst f)) (snd f))%float)
    fills start.

Section Errors.

Context {C : Collaborators}.

(** "fatal to the call, order state unchanged": the call raises and the
    order at [l] is as before. *)
Definition fails_leaving_order {A} (m : M A) (l : nat) (b : Broker) : Prop :=
  (exists e, fst (m b) = Raise e) /\ heap (snd (m b)) !! l = heap b !! l.

(** "raised at construction, order never registered", nor notified. *)
Definition fails_unregistered {A} (m : M A) (b : Broker) : Prop :=
  (exists e, fst (m b) = Raise e) /\
  orders (snd (m b)) = orders b /\
  notifs (snd (m b)) = notifs b.

End Errors.

End Spec.

(** ** A model of the imported classes *)

(** The methods of [backtrader.order.Order], [backtrader.position.Position]
    and a store that only records what it is asked, after the [backtrader]
    sources the module imports.  The data feed's clock is not modelled: the
    current bar's datetime reads as [0.0]. *)
Module Backtrader.

Definition datetime0 (d : nat) : float := 0%float.

(** [Order.__init__]: the reference comes from [refbasis], the status is
    [Created], a sell order stores its size negated, and [executed] starts
    with the whole size remaining.  No argument is validated. *)
Definition Order_init (side : OrdType) (p : OrderParams) (r : Z)
    : result Order :=
  let sz := match side with
            | Buy => p_size p
            | Sell => (- p_size p)%float
            end in
  Ok {| ref := r; ordtype := side; params := p; size := sz;
        status := Created; info := [];
        executed := {| od_dt := 0; od_size := 0; od_remsize := sz;
                       od_price := 0 |};
        has_broker := false |}.

(** [self.info[key] = val]. *)
Fixpoint info_set (k v : string) (i : list (string * string))
    : list (string * string) :=
  match i with
  | [] => [(k, v)]
  | (k', v') :: rest =>
      if String.eqb k k' then (k, v) :: rest else (k', v') :: info_set k v rest
  end.

Definition Order_addinfo (kwargs : list (string * string)) : method :=
  fun ord =>
    (Ok tt, set_info (fold_left (fun i kv => info_set (fst kv) (snd kv) i)
                                kwargs (info ord)) ord).

(** [def submit(self, broker=None)]. *)
Definition Order_submit (with_broker : bool) : method :=
  fun ord => (Ok tt, set_has_broker with_broker (set_status Submitted ord)).

(** [def accept(self, broker=None)]. *)
Definition Order_accept (with_broker : bool) : method :=
  fun ord => (Ok tt, set_has_broker with_broker (set_status Accepted ord)).

Definition set_dt (dt : float) (ord : Order) : Order :=
  set_executed {| od_dt := dt; od_size := od_size (executed ord);
                  od_remsize := od_remsize (executed ord);
                  od_price := od_price (executed ord) |} ord.

(** [def reject(self, broker=None)]: an order that is already rejected is
    left alone. *)
Definition Order_reject (with_broker : bool) : method :=
  fun ord =>
    if bool_decide (status ord = Rejected)
    then (Ok tt, ord)
    else (Ok tt, set_has_broker with_broker
                   (set_dt (datetime0 (data ord)) (set_status Rejected ord))).

(** [def cancel(self)]: one positional argument more than the [def] takes
    is a [TypeError]. *)
Definition Order_cancel (with_broker : bool) : method :=
  fun ord =>
    if with_broker
    then (Raise TypeError, ord)
    else (Ok tt, set_dt (datetime0 (data ord)) (set_status Canceled ord)).

(** [def expire(self)] of [Order]: market orders never expire, others do
    once the feed's clock has passed [valid]. *)
Definition Order_expire (with_broker : bool) : method :=
  fun ord =>
    if with_broker
    then (Raise TypeError, ord)
    else
      match p_exectype (params ord), p_valid (params ord) with
      | None, _ | Some Market, _ => (Ok tt, ord)
      | _, Some v =>
          if truthy v && PrimFloat.ltb v (datetime0 (data ord))
          then (Ok tt, set_dt (datetime0 (data ord)) (set_status Expired ord))
          else (Ok tt, ord)
      | _, None => (Ok tt, ord)
      end.

Definition Order_partial : method := fun ord => (Ok tt, set_status Partial ord).

Definition Order_completed : method :=
  fun ord => (Ok tt, set_status Completed ord).

(** [execute]: for a size that is not zero the fill is booked on
    [executed] as [OrderData.addbit] does it: the remaining size shrinks and
    the executed size grows by the fill, and the price becomes the
    size-weighted average, a division by the new executed size that raises
    [ZeroDivisionError] when that size is back at zero, with the sizes
    already updated.  Then, and for a zero size at once, the status follows
    the remaining size. *)
Definition Order_execute (x : ExecArgs) : method :=
  fun ord =>
    let by_remsize (o : Order) :=
      set_status (if truthy (od_remsize (executed o))
                  then Partial else Completed) o in
    if truthy (x_size x)
    then
      let e := executed ord in
      let newsize := (od_size e + x_size x)%float in
      let rem := (od_remsize e - x_size x)%float in
      if truthy newsize
      then
        let pr := ((od_size e * od_price e + x_size x * x_price x)
                   / newsize)%float in
        (Ok tt, by_remsize
                  (set_executed {| od_dt := x_dt x; od_size := newsize;
                                   od_remsize := rem; od_price := pr |} ord))
      else
        (Raise (External "ZeroDivisionError"),
         set_executed {| od_dt := x_dt x; od_size := newsize;
                         od_remsize := rem; od_price := od_price e |} ord)
    else (Ok tt, by_remsize ord).

(** [clone()]: [copy(self)] with [executed] replaced by a copy of itself.
    The new object has the attribute values of the old one, which is all a
    cell of the store records.  The copy is shallow: its [info] mapping and
    its [params] object are the original's own; [World] keeps track of
    that sharing. *)
Definition Order_clone (ord : Order) : Order := ord.

(** [Position.update(size, price)], returning
    [(self.size, self.price, opened, closed)]. *)
Definition Position_update (sz price : float) (p : Position)
    : (float * float * float * float) * Position :=
  let oldsize := pos_size p in
  let newsize := (oldsize + sz)%float in
  let '(pr, opened, closed) :=
    if negb (truthy newsize) then (0%float, 0%float, sz)
    else if negb (truthy oldsize) then (price, sz, 0%float)
    else if PrimFloat.ltb 0 oldsize then
      if PrimFloat.ltb 0 sz
      then (((pos_price p * oldsize + sz * price) / newsize)%float,
            sz, 0%float)
      else if PrimFloat.ltb 0 newsize then (pos_price p, 0%float, sz)
      else (price, newsize, (- oldsize)%float)
    else
      if PrimFloat.ltb sz 0
      then (((pos_price p * oldsize + sz * price) / newsize)%float,
            sz, 0%float)
      else if PrimFloat.ltb newsize 0 then (pos_price p, 0%float, sz)
      else (price, newsize, (- oldsize)%float) in
  ((newsize, pr, opened, closed), {| pos_size := newsize; pos_price := pr |}).

(** A store that logs the requests it receives and answers with the order
    ([order_create]) or with nothing ([order_cancel]). *)
Inductive request : Type :=
| Create (l : nat)
| CancelReq (l : nat).

Definition log_create (l : nat) (ord : Order) (s : list request)
    : result (option nat) * list request :=
  (Ok (Some l), s ++ [Create l]).

Definition log_cancel (l : nat) (ord : Order) (s : list request)
    : result (option nat) * list request :=
  (Ok None, s ++ [CancelReq l]).

#[global] Instance bt : Collaborators := {|
  new_order := Order_init;
  order_addinfo := Order_addinfo;
  order_submit := Order_submit;
  order_accept := Order_accept;
  order_reject := Order_reject;
  order_cancel_m := Order_cancel;
  order_expire := Order_expire;
  order_execute := Order_execute;
  order_partial := Order_partial;
  order_completed := Order_completed;
  order_clone := Order_clone;
  position_update := Position_update;
  data_datetime0 := fun d => Ok (datetime0 d);
  getcommissioninfo := fun d => Ok 0%nat;
  Store := list request;
  store_order_create := log_create;
  store_order_cancel := log_cancel
|}.

End Backtrader.

(** ** Concrete runs *)

Module Run.

(** The state after a run of calls, exceptions dropped as the store's
    callback thread would leave them. *)
Definition after {A} (m : M A) (b : Broker) : Broker := snd (m b).

Definition market (sz : float) : OrderParams :=
  {| p_owner := 0; p_data := 0; p_size := sz; p_price := None;
     p_pricelimit := None; p_exectype := None; p_valid := None;
     p_tradeid := 0 |}.

(** A fresh broker with the default parameters: cash [10000.0],
    [checksubmit=True]. *)
Definition b0 : Broker := init (C := Backtrader.bt) 10000%float true [].

(** After [buy(size=10)]: order 1 lives at address 0. *)
Definition b_bought : Broker := after (buy (market 10) []) b0.

(** ... then [_submit(1)] and [_accept(1)]. *)
Definition b_accepted : Broker :=
  after (_accept 1) (after (_submit 1) b_bought).

(** ... or [_submit(1)] and [_reject(1)]: order 1 is terminal. *)
Definition b_rejected : Broker :=
  after (_reject 1) (after (_submit 1) b_bought).

(** ... or the order's own [cancel()] run on the live object, as a store
    thread that took the cancellation would: order 1 is [Cancelled]. *)
Definition b_cancelled : Broker :=
  after (call_method (order_cancel_m false) 0%nat) b_bought.

(** An order object that never went through [buy] or [sell]. *)
Definition stray : Order :=
  {| ref := 7; ordtype := Buy; params := market 5; size := 5;
     status := Created; info := [];
     executed := {| od_dt := 0; od_size := 0; od_remsize := 5;
                    od_price := 0 |};
     has_broker := false |}.

Definition b_stray : Broker := set_heap (heap b_bought ++ [stray]) b_bought.

End Run.

(** ** Calls from outside *)

Section BrokerCalls.

Context {C : Collaborators}.

(** The calls the engine, a strategy or the store make on a broker. *)
Inductive call : Type :=
| GetNotification
| Next
| GetCash
| SetCash (c : float)
| GetValue (datas : option (list nat))
| SetChecksubmit (c : bool)
| GetPosition (d : nat)
| OrderStatus (l : nat)
| Submit (l : nat)
| StoreCallback (t : transition) (oref : Z)
| Place (side : OrdType) (p : OrderParams) (kwargs : list (string * string))
| Cancel (l : nat)
| Notify (l : nat).

(** The state a call leaves, whether it returned or raised. *)
Definition run_call (c : call) (b : Broker) : Broker :=
  match c with
  | GetNotification => snd (get_notification b)
  | Next => snd (next b)
  | GetCash => snd (get_cash b)
  | SetCash c => snd (set_cash c b)
  | GetValue datas => snd (get_value datas b)
  | SetChecksubmit c => snd (set_checksubmit c b)
  | GetPosition d => snd (getposition d b)
  | OrderStatus l => snd (orderstatus l b)
  | Submit l => snd (submit l b)
  | StoreCallback t oref => snd (run_transition t oref b)
  | Place Buy p kwargs => snd (buy p kwargs b)
  | Place Sell p kwargs => snd (sell p kwargs b)
  | Cancel l => snd (cancel l b)
  | Notify l => snd (notify l b)
  end.

Definition run_calls (cs : list call) (b : Broker) : Broker :=
  fold_left (fun b c => run_call c b) cs b.

(** The amount of the last [set_cash] among the calls, [c0] if there is
    none. *)
Definition last_cash (cs : list call) (c0 : float) : float :=
  fold_left (fun c x => match x with SetCash c' => c' | _ => c end) cs c0.

(** A run of store callbacks: what each call returned, and the state after
    the last. *)
Fixpoint run_callbacks (cs : list (transition * Z)) (b : Broker)
    : list (result unit) * Broker :=
  match cs with
  | [] => ([], b)
  | (t, oref) :: cs' =>
      let '(r, b1) := run_transition t oref b in
      let '(rs, b2) := run_callbacks cs' b1 in
      (r :: rs, b2)
  end.

(** How many of the calls returned. *)
Fixpoint successes {A} (rs : list (result A)) : nat :=
  match rs with
  | [] => 0
  | r :: rs' => ((if is_ok r then 1 else 0) + successes rs')%nat
  end.

(** Every reference the broker holds names an object of the store. *)
Definition valid_refs (b : Broker) : Prop :=
  (forall r l, orders b !! r = Some l -> (l < length (heap b))%nat) /\
  Forall (fun l => (l < length (heap b))%nat) (submitted b) /\
  Forall (fun x => match x with
                   | Some l => (l < length (heap b))%nat
                   | None => True
                   end) (notifs b).

(** What a call may do to the store and the registry: objects are added,
    never removed; registered references stay registered; a reference it
    adds to the registry, the [submitted] deque or the queue names an
    object. *)
Definition grows (b b' : Broker) : Prop :=
  (length (heap b) <= length (heap b'))%nat /\
  (forall r, is_Some (orders b !! r) -> is_Some (orders b' !! r)) /\
  (forall r l, orders b' !! r = Some l ->
     orders b !! r = Some l \/ (l < length (heap b'))%nat) /\
  (forall l, l ∈ submitted b' ->
     l ∈ submitted b \/ (l < length (heap b'))%nat) /\
  (forall l, Some l ∈ notifs b' ->
     Some l ∈ notifs b \/ (l < length (heap b'))%nat).

End BrokerCalls.

Module Run2.

Import Run.

(** The accepted order 1 with the position of its data looked up. *)
Definition b_position : Broker := after (getposition 0%nat) b_accepted.

(** The snapshot that [_submit(1)] queued, at address 1, while the live
    order at address 0 has moved on to [Accepted]. *)
Definition snapshot_addr : nat := 1%nat.

End Run2.

(** ** Shallow copies *)

Section Sharing.

Context {C : Collaborators}.

Definition set_params (p : OrderParams) (o : Order) : Order :=
  {| ref := ref o; ordtype := ordtype o; params := p; size := size o;
     status := status o; info := info o; executed := executed o;
     has_broker := has_broker o |}.

(** What [clone()] gives the copy for itself: numbers, the status, and
    [executed], which is copied. *)
Definition own_part (o : Order)
    : Z * OrdType * float * Status * OrderData * bool :=
  (ref o, ordtype o, size o, status o, executed o, has_broker o).

(** What a copy has in common with its original: [copy(self)] copies the
    references to the [info] mapping and to the [params] object, not the
    objects. *)
Definition shared_part (o : Order) : list (string * string) * OrderParams :=
  (info o, params o).

(** The broker, and which order objects are copies: [copies] sends the
    address of a copy to the address of the order it goes back to, whose
    [info] and [params] objects it shares.  Cells of the store hold values,
    so a change made in place to a shared object is written to every cell
    that shares it. *)
Record World : Type := {
  broker : Broker;
  copies : gmap nat nat
}.

Definition origin (w : World) (a : nat) : nat := default a (copies w !! a).

(** [notify], with the clone it queues recorded as a copy of [l]. *)
Definition w_notify (l : nat) (w : World) : result unit * World :=
  let '(r, b') := notify l (broker w) in
  (r, {| broker := b';
         copies := if is_ok r
                   then <[length (heap (broker w)) := origin w l]> (copies w)
                   else copies w |}).

(** A store callback: when it returns, the snapshot it has queued is a copy
    of the live order. *)
Definition w_callback (t : transition) (oref : Z) (w : World)
    : result unit * World :=
  let '(r, b') := run_transition t oref (broker w) in
  (r, {| broker := b';
         copies := match r, orders (broker w) !! oref with
                   | Ok _, Some l =>
                       <[length (heap (broker w)) := origin w l]> (copies w)
                   | _, _ => copies w
                   end |}).

(** An assignment to attributes of one object ([order.status = ...]): the
    shared objects stay the ones they were. *)
Definition own_update (f : Order -> Order) (o : Order) : Order :=
  set_params (params o) (set_info (info o) (f o)).

(** A change in place of the shared objects ([order.info[key] = val], as
    [addinfo] does, or an attribute of [order.params]). *)
Definition shared_update
    (gi : list (string * string) -> list (string * string))
    (gp : OrderParams -> OrderParams) (o : Order) : Order :=
  set_params (gp (params o)) (set_info (gi (info o)) o).

(** What may happen to a live order once one of its snapshots is queued. *)
Inductive live_step : Type :=
| Assign (f : Order -> Order)
| InPlace (gi : list (string * string) -> list (string * string))
          (gp : OrderParams -> OrderParams)
| Callback (t : transition).

Definition run_live_step (oref : Z) (l : nat) (s : live_step) (w : World)
    : World :=
  match s with
  | Assign f =>
      {| broker :=
           match heap (broker w) !! l with
           | Some ord =>
               set_heap (<[l := own_update f ord]> (heap (broker w)))
                 (broker w)
           | None => broker w
           end;
         copies := copies w |}
  | InPlace gi gp =>
      {| broker :=
           set_heap
             (imap (fun a o => if decide (origin w a = origin w l)
                               then shared_update gi gp o else o)
                   (heap (broker w)))
             (broker w);
         copies := copies w |}
  | Callback t => snd (w_callback t oref w)
  end.

Definition run_live_steps (oref : Z) (l : nat) (ss : list live_step)
    (w : World) : World :=
  fold_left (fun w s => run_live_step oref l s w) ss w.

(** The object at [l'] is a snapshot of the live order at [l], registered
    under [oref], taken when the order read [ord]: what the copy has for
    itself is as in [ord], what it shares reads as in the live order. *)
Definition snapshot_of (oref : Z) (l l' : nat) (ord : Order) (w : World)
    : Prop :=
  orders (broker w) !! oref = Some l /\
  origin w l' = origin w l /\
  exists snap live,
    heap (broker w) !! l' = Some snap /\
    heap (broker w) !! l = Some live /\
    own_part snap = own_part ord /\
    shared_part snap = shared_part live.

End Sharing.

Module Run3.

Import Run.

(** [order.addinfo(tag='late')], as a change in place of the mapping. *)
Definition addinfo_late : live_step :=
  InPlace (fun i => Backtrader.info_set "tag" "late" i) (fun p => p).

(** The broker after [buy(size=10)]; the order is no copy of anything. *)
Definition w_bought : World := {| broker := b_bought; copies := ∅ |}.

(** ... after [_submit(1)], which queues the snapshot at address 1. *)
Definition w_submitted : World := snd (w_callback TSubmit 1 w_bought).

(** Later events on the live order 1: its status is assigned, a key is
    added to its [info], the store accepts it. *)
Definition later : list live_step :=
  [Assign (set_status Margin); addinfo_late; Callback TAccept].

End Run3.

(** ** Properties *)

Section Theory.

Context {C : Collaborators}.

Implicit Types (b : Broker) (l : nat) (ord : Order) (oref : Z).

(** *** Registry and object store *)

Lemma orders_getitem_Some b oref l :
  orders b !! oref = Some l -> orders_getitem oref b = (Ok l, b).
Proof. intros H. unfold orders_getitem. now rewrite H. Qed.

Lemma orders_getitem_None b oref :
  orders b !! oref = None -> orders_getitem oref b = (Raise KeyError, b).
Proof. intros H. unfold orders_getitem. now rewrite H. Qed.

Lemma deref_Some b l ord :
  heap b !! l = Some ord -> deref l b = (Ok ord, b).
Proof. intros H. unfold deref. now rewrite H. Qed.

Lemma deref_None b l :
  heap b !! l = None -> deref l b = (Raise Dangling, b).
Proof. intros H. unfold deref. now rewrite H. Qed.

Lemma call_method_eq (m : method) b l ord :
  heap b !! l = Some ord ->
  call_method m l b = (fst (m ord), set_heap (<[l := snd (m ord)]> (heap b)) b).
Proof.
  intros H. unfold call_method, bind. rewrite (deref_Some _ _ _ H).
  now destruct (m ord).
Qed.

Lemma notify_eq b l ord :
  heap b !! l = Some ord ->
  notify l b =
  (Ok tt, set_notifs (notifs b ++ [Some (length (heap b))])
            (set_heap (heap b ++ [order_clone ord]) b)).
Proof.
  intros H. unfold notify, bind. now rewrite (deref_Some _ _ _ H).
Qed.

(** *** Fills *)

Lemma getposition_call_clone b (d : nat) :
  getposition_call d ["clone"%string] b = (Raise TypeError, b).
Proof. reflexivity. Qed.

Lemma _fill_registered b oref l ord sz price :
  orders b !! oref = Some l -> heap b !! l = Some ord ->
  _fill oref sz price b = (Raise TypeError, b).
Proof.
  intros Hr Hl. unfold _fill, bind.
  rewrite (orders_getitem_Some _ _ _ Hr), (deref_Some _ _ _ Hl).
  now rewrite getposition_call_clone.
Qed.

Lemma _fill_raises b oref sz price :
  exists e, _fill oref sz price b = (Raise e, b).
Proof.
  destruct (orders b !! oref) as [l|] eqn:Hr.
  - destruct (heap b !! l) as [ord|] eqn:Hl.
    + exists TypeError. eapply _fill_registered; eauto.
    + exists Dangling. unfold _fill, bind.
      now rewrite (orders_getitem_Some _ _ _ Hr), (deref_None _ _ Hl).
  - exists KeyError. unfold _fill, bind.
    now rewrite (orders_getitem_None _ _ Hr).
Qed.

Lemma run_fills_id oref fills b : run_fills oref fills b = b.
Proof.
  induction fills as [|[sz price] fills IH]; [reflexivity|].
  unfold run_fills in *. cbn [fold_left fst snd].
  destruct (_fill_raises b oref sz price) as [e ->]. exact IH.
Qed.

(** *** Status callbacks *)

Lemma run_transition_status t (m : method) oref :
  transition_method t = Some m ->
  run_transition t oref = status_callback m oref.
Proof. destruct t; intros [= <-]; reflexivity. Qed.

Lemma status_callback_eq (m : method) b oref l ord :
  orders b !! oref = Some l -> heap b !! l = Some ord ->
  status_callback m oref b =
  match fst (m ord) with
  | Ok _ =>
      (Ok tt,
       set_notifs (notifs b ++ [Some (length (heap b))])
         (set_heap (<[l := snd (m ord)]> (heap b)
                    ++ [order_clone (snd (m ord))]) b))
  | Raise e => (Raise e, set_heap (<[l := snd (m ord)]> (heap b)) b)
  end.
Proof.
  intros Hr Hl. unfold status_callback, bind.
  rewrite (orders_getitem_Some _ _ _ Hr), (call_method_eq _ _ _ _ Hl).
  destruct (fst (m ord)) as [[]|e]; [|reflexivity].
  erewrite notify_eq.
  - cbn. now rewrite length_insert.
  - cbn. apply list_lookup_insert_eq. now apply lookup_lt_Some in Hl.
Qed.

(** *** What a method leaves alone *)

Lemma keeps_ret {X A} (f : Broker -> X) (a : A) : keeps f (ret a).
Proof. now intros b. Qed.

Lemma keeps_raise {X A} (f : Broker -> X) e : keeps f (raise (A := A) e).
Proof. now intros b. Qed.

Lemma keeps_lift {X A} (f : Broker -> X) (r : result A) : keeps f (lift r).
Proof. now intros b. Qed.

Lemma keeps_bind {X A B} (f : Broker -> X) (m : M A) (k : A -> M B) :
  keeps f m -> (forall a, keeps f (k a)) -> keeps f (bind m k).
Proof.
  intros Hm Hk b. unfold bind. specialize (Hm b).
  destruct (m b) as [[a|e] b1]; cbn in *; [|exact Hm].
  now rewrite Hk.
Qed.

Lemma keeps_modify {X} (f : Broker -> X) g :
  (forall b, f (g b) = f b) -> keeps f (modify g).
Proof. intros H b. apply H. Qed.

Lemma keeps_deref {X} (f : Broker -> X) l : keeps f (deref l).
Proof. intros b. unfold deref. now destruct (heap b !! l). Qed.

Lemma keeps_orders_getitem {X} (f : Broker -> X) oref :
  keeps f (orders_getitem oref).
Proof. intros b. unfold orders_getitem. now destruct (orders b !! oref). Qed.

Lemma keeps_alloc {X} (f : Broker -> X) ord :
  (forall h b, f (set_heap h b) = f b) -> keeps f (alloc ord).
Proof. intros H b. apply H. Qed.

Lemma keeps_call_method {X} (f : Broker -> X) (m : method) l :
  (forall h b, f (set_heap h b) = f b) -> keeps f (call_method m l).
Proof.
  intros H. unfold call_method. apply keeps_bind; [apply keeps_deref|].
  intros ord b. destruct (m ord). apply H.
Qed.

Lemma keeps_pos_update {X} (f : Broker -> X) d sz price :
  (forall p b, f (set_positions p b) = f b) -> keeps f (pos_update d sz price).
Proof.
  intros H b. unfold pos_update. destruct (positions b !! d); [|reflexivity].
  destruct (position_update sz price p). apply H.
Qed.

Lemma keeps_store_call {X} (f : Broker -> X) g l :
  (forall s b, f (set_o s b) = f b) -> keeps f (store_call g l).
Proof.
  intros H. unfold store_call. apply keeps_bind; [apply keeps_deref|].
  intros ord b. destruct (g l ord (o b)). apply H.
Qed.

Lemma keeps_if {X A} (f : Broker -> X) (c : bool) (m1 m2 : M A) :
  keeps f m1 -> keeps f m2 -> keeps f (if c then m1 else m2).
Proof. now destruct c. Qed.

Create HintDb frame.
#[local] Hint Resolve keeps_ret keeps_raise keeps_lift keeps_deref
  keeps_orders_getitem : frame.

(** One step of a frame proof: split a sequence, or close a primitive whose
    side condition is that a setter does not touch the reading. *)
Ltac frame_step :=
  lazymatch goal with
  | |- keeps _ (bind _ _) => apply keeps_bind; [|intros ?]
  | |- keeps _ (if _ then _ else _) => apply keeps_if
  | |- keeps _ (modify _) => apply keeps_modify; intros; reflexivity
  | |- keeps _ (alloc _) => apply keeps_alloc; intros; reflexivity
  | |- keeps _ (call_method _ _) =>
      apply keeps_call_method; intros; reflexivity
  | |- keeps _ (pos_update _ _ _) =>
      apply keeps_pos_update; intros; reflexivity
  | |- keeps _ (store_call _ _) =>
      apply keeps_store_call; intros; reflexivity
  | |- keeps _ _ => solve [auto with frame]
  end.

Ltac frame := repeat frame_step.

Lemma notify_keeps_cash l : keeps cash (notify l).
Proof. unfold notify. frame. Qed.

Lemma _fill_booking_keeps_cash l d sz price :
  keeps cash (_fill_booking l d sz price).
Proof.
  unfold _fill_booking.
  apply keeps_bind; [frame|]. intros [[[psize pprice] opened] closed].
  frame. apply notify_keeps_cash.
Qed.

Lemma notify_keeps_orders l : keeps orders (notify l).
Proof. unfold notify. frame. Qed.

Lemma status_callback_keeps_orders (m : method) oref :
  keeps orders (status_callback m oref).
Proof. unfold status_callback. frame. apply notify_keeps_orders. Qed.

Lemma run_transition_keeps_orders t oref : keeps orders (run_transition t oref).
Proof.
  destruct (transition_method t) as [m|] eqn:Ht.
  - rewrite (run_transition_status _ _ _ Ht).
    apply status_callback_keeps_orders.
  - destruct t; try discriminate. intros b. cbn.
    now destruct (_fill_raises b oref sz price) as [e ->].
Qed.

(** *** Snapshots *)

(** A callback on the order at [l] leaves every other object alone and only
    lengthens the queue. *)
Lemma run_transition_other_cell t oref b l l' x :
  orders b !! oref = Some l -> l' <> l -> heap b !! l' = Some x ->
  heap (snd (run_transition t oref b)) !! l' = Some x /\
  notifs b `prefix_of` notifs (snd (run_transition t oref b)).
Proof.
  intros Hr Hne Hx.
  destruct (transition_method t) as [m|] eqn:Ht.
  - rewrite (run_transition_status _ _ _ Ht).
    destruct (heap b !! l) as [ord|] eqn:Hl.
    + rewrite (status_callback_eq _ _ _ _ _ Hr Hl).
      assert (<[l := snd (m ord)]> (heap b) !! l' = Some x) as Hx'
        by now rewrite list_lookup_insert_ne.
      destruct (fst (m ord)) as [[]|e]; cbn.
      * split; [now apply lookup_app_l_Some|]. now apply prefix_app_r.
      * now split.
    + unfold status_callback, bind, call_method, bind.
      rewrite (orders_getitem_Some _ _ _ Hr), (deref_None _ _ Hl). now split.
  - destruct t; try discriminate. cbn.
    destruct (_fill_raises b oref sz price) as [e ->]. now split.
Qed.

(** *** Calls that return *)

Lemma bind_Ok_inv {A B} (m : M A) (k : A -> M B) b r b' :
  bind m k b = (Ok r, b') ->
  exists a b1, m b = (Ok a, b1) /\ k a b1 = (Ok r, b').
Proof.
  unfold bind. destruct (m b) as [[a|e] b1]; [|discriminate].
  intros H. now exists a, b1.
Qed.

(** A method call that returned has replaced one object by another: the store
    is as long as before and the queue untouched. *)
Lemma call_method_Ok_shape (m : method) l b b' :
  call_method m l b = (Ok tt, b') ->
  length (heap b') = length (heap b) /\ notifs b' = notifs b /\
  is_Some (heap b' !! l).
Proof.
  unfold call_method, bind, deref.
  destruct (heap b !! l) as [ord|] eqn:Hl; [|discriminate].
  destruct (m ord) as [r ord']. intros [= -> <-]. cbn.
  rewrite length_insert. repeat split.
  exists ord'. apply list_lookup_insert_eq. now apply lookup_lt_Some in Hl.
Qed.

(** X15: past the position lookup, a fill that is booked to the end
    queues exactly one snapshot. *)
Lemma _fill_booking_notifies_once l d sz price b b' :
  _fill_booking l d sz price b = (Ok tt, b') ->
  notifs b' = notifs b ++ [Some (length (heap b))].
Proof.
  unfold _fill_booking. intros H.
  apply bind_Ok_inv in H as ([[[psize pprice] opened] closed] & b1 & H1 & H).
  apply bind_Ok_inv in H as (comminfo & b2 & H2 & H).
  apply bind_Ok_inv in H as (dt & b3 & H3 & H).
  apply bind_Ok_inv in H as ([] & b4 & H4 & H).
  apply bind_Ok_inv in H as (ord' & b5 & H5 & H).
  apply bind_Ok_inv in H as ([] & b6 & H6 & H).
  assert (notifs b1 = notifs b /\ heap b1 = heap b) as [Hn1 Hh1].
  { unfold pos_update in H1. destruct (positions b !! d); [|discriminate].
    destruct (position_update sz price p). now injection H1 as _ <-. }
  unfold lift in H2, H3. injection H2 as _ <-. injection H3 as _ <-.
  apply call_method_Ok_shape in H4 as (Hl4 & Hn4 & _).
  assert (b5 = b4) as ->.
  { unfold deref in H5. destruct (heap b4 !! l); now injection H5. }
  assert (length (heap b6) = length (heap b4) /\ notifs b6 = notifs b4 /\
          is_Some (heap b6 !! l)) as (Hl6 & Hn6 & [ord6 Ho6]).
  { destruct (truthy _); now apply call_method_Ok_shape in H6. }
  rewrite (notify_eq _ _ _ Ho6) in H. injection H as <-. cbn.
  now rewrite Hn6, Hn4, Hn1, Hl6, Hl4, Hh1.
Qed.

(** *** Cash *)

(** C1, amended: fills never move cash.  After any sequence of [_fill]
    calls on any order the current cash and the starting cash are what they
    were before, and the booking part of [_fill] leaves cash alone as well:
    no statement of [_fill] assigns [self.cash]. *)
Theorem fills_keep_cash b oref fills :
  cash (run_fills oref fills b) = cash b /\
  startingcash (run_fills oref fills b) = startingcash b /\
  forall l d sz price b1, cash (snd (_fill_booking l d sz price b1)) = cash b1.
Proof.
  rewrite run_fills_id. repeat split.
  intros l d sz price b1. apply _fill_booking_keeps_cash.
Qed.

(** C10: [get_value] returns [0.0] for every argument and in every state,
    and changes nothing. *)
Theorem get_value_zero (datas : option (list nat)) b :
  get_value datas b = (Ok 0%float, b).
Proof. reflexivity. Qed.

(** *** The five status callbacks *)

(** C3, amended: the status callbacks check nothing.  For a registered
    order in any state, terminal or not, [_submit], [_accept], [_reject],
    [_cancel] and [_expire] run the order's own method [m] on the live
    order; the call ends as the method ends, the order is left as the method
    left it, and a snapshot is queued exactly when the method returned. *)
Theorem status_callbacks_unguarded t (m : method) b oref l ord :
  transition_method t = Some m ->
  orders b !! oref = Some l ->
  heap b !! l = Some ord ->
  let r := fst (run_transition t oref b) in
  let b' := snd (run_transition t oref b) in
  r = fst (m ord) /\
  heap b' !! l = Some (snd (m ord)) /\
  notifs b' = (if is_ok (fst (m ord))
               then notifs b ++ [Some (length (heap b))]
               else notifs b).
Proof.
  intros Ht Hr Hl. cbv zeta.
  rewrite (run_transition_status _ _ _ Ht), (status_callback_eq _ _ _ _ _ Hr Hl).
  assert (<[l := snd (m ord)]> (heap b) !! l = Some (snd (m ord))) as Hl'.
  { apply list_lookup_insert_eq. now apply lookup_lt_Some in Hl. }
  destruct (fst (m ord)) as [[]|e]; cbn; repeat split; try exact Hl'.
  now apply lookup_app_l_Some.
Qed.

(** C9: a transition callback that returns has queued exactly one
    notification, a snapshot of the order as the transition left it. *)
Theorem transition_notifies_once t oref b b' :
  run_transition t oref b = (Ok tt, b') ->
  notifs b' = notifs b ++ [Some (length (heap b))] /\
  length (notifs b') = S (length (notifs b)) /\
  exists l ord',
    orders b !! oref = Some l /\
    heap b' !! l = Some ord' /\
    heap b' !! length (heap b) = Some (order_clone ord').
Proof.
  intros Hrun.
  destruct (transition_method t) as [m|] eqn:Ht.
  - rewrite (run_transition_status _ _ _ Ht) in Hrun.
    destruct (orders b !! oref) as [l|] eqn:Hr.
    + destruct (heap b !! l) as [ord|] eqn:Hl.
      * rewrite (status_callback_eq _ _ _ _ _ Hr Hl) in Hrun.
        assert (l < length (heap b))%nat as Hlt by now apply lookup_lt_Some in Hl.
        destruct (fst (m ord)) as [[]|e]; [|discriminate].
        injection Hrun as <-. cbn. split; [reflexivity|].
        split; [rewrite length_app; cbn; lia|].
        exists l, (snd (m ord)). split; [reflexivity|]. split.
        -- apply lookup_app_l_Some. now apply list_lookup_insert_eq.
        -- rewrite lookup_app_r; rewrite length_insert; [|lia].
           now rewrite Nat.sub_diag.
      * unfold status_callback, bind, call_method, bind in Hrun.
        rewrite (orders_getitem_Some _ _ _ Hr), (deref_None _ _ Hl) in Hrun.
        discriminate.
    + unfold status_callback, bind in Hrun.
      rewrite (orders_getitem_None _ _ Hr) in Hrun. discriminate.
  - destruct t; try discriminate. cbn in Hrun.
    destruct (_fill_raises b oref sz price) as [e He].
    rewrite He in Hrun. discriminate.
Qed.

(** *** Placing and cancelling *)

(** C4, amended: [buy] and [sell] validate nothing.  Whatever the size,
    zero and negative ones included, once the order constructor and
    [addinfo] have returned the order sits in the registry under its
    reference, the store's [order_create] has been called with it and its
    answer is the answer of the call; the call itself queues no
    notification. *)
Theorem place_registers_any_size side p kwargs b ord :
  new_order side p (refbasis b) = Ok ord ->
  fst (order_addinfo kwargs ord) = Ok tt ->
  let call := match side with Buy => buy p kwargs | Sell => sell p kwargs end in
  let ord' := snd (order_addinfo kwargs ord) in
  let l := length (heap b) in
  fst (call b) = fst (store_order_create l ord' (o b)) /\
  o (snd (call b)) = snd (store_order_create l ord' (o b)) /\
  orders (snd (call b)) = <[ref ord' := l]> (orders b) /\
  heap (snd (call b)) = heap b ++ [ord'] /\
  notifs (snd (call b)) = notifs b.
Proof.
  intros Hnew Hadd. cbv zeta.
  assert (place side p kwargs b =
          (fst (store_order_create (length (heap b))
                  (snd (order_addinfo kwargs ord)) (o b)),
           set_o (snd (store_order_create (length (heap b))
                         (snd (order_addinfo kwargs ord)) (o b)))
             (set_orders (<[ref (snd (order_addinfo kwargs ord))
                            := length (heap b)]> (orders b))
                (set_heap (heap b ++ [snd (order_addinfo kwargs ord)])
                   (set_refbasis (refbasis b + 1) b))))) as Hplace.
  { unfold place, bind, next_ref, lift, alloc, call_method, bind, deref,
      orders_setitem, modify, store_call, bind, deref. cbn.
    rewrite Hnew. cbn.
    rewrite lookup_app_r by lia. rewrite Nat.sub_diag. cbn.
    destruct (order_addinfo kwargs ord) as [r ord'] eqn:Ha. cbn in Hadd.
    subst r. cbn.
    rewrite insert_app_r_alt by lia. rewrite Nat.sub_diag. cbn.
    rewrite lookup_app_r by lia. rewrite Nat.sub_diag. cbn.
    rewrite lookup_app_r by lia. rewrite Nat.sub_diag. cbn.
    destruct (store_order_create (length (heap b)) ord' (o b)) as [r s'].
    reflexivity. }
  assert (match side with Buy => buy p kwargs | Sell => sell p kwargs end
          = place side p kwargs) as -> by now destruct side.
  rewrite Hplace. cbn. repeat split.
Qed.

(** C5: [cancel] on an order that is already [Cancelled] changes nothing:
    the state afterwards is the state before, so the store has not been
    asked anything and the queue is as long as it was.  The call returns
    [None] at once when the order is in the registry; for an order object
    the registry does not know, the lookup that comes first raises
    [KeyError]. *)
Theorem cancel_cancelled_noop b l ord :
  heap b !! l = Some ord ->
  status ord = Cancelled ->
  snd (cancel l b) = b /\
  o (snd (cancel l b)) = o b /\
  length (notifs (snd (cancel l b))) = length (notifs b) /\
  fst (cancel l b) = match orders b !! ref ord with
                     | Some _ => Ok None
                     | None => Raise KeyError
                     end.
Proof.
  intros Hl Hs.
  assert (cancel l b = (match orders b !! ref ord with
                        | Some _ => Ok None
                        | None => Raise KeyError
                        end, b)) as ->; [|now repeat split].
  unfold cancel, bind, orders_getitem. rewrite (deref_Some _ _ _ Hl).
  destruct (orders b !! ref ord); [|reflexivity].
  now rewrite bool_decide_eq_true_2.
Qed.

(** *** Status lookup *)

Lemma submit_checked_keeps_orders b l :
  p_checksubmit b = true ->
  orders (snd (submit l b)) = orders b /\ is_ok (fst (submit l b)) = false.
Proof.
  intros Hcs. unfold submit, bind at 1 2. cbn. rewrite Hcs.
  unfold bind at 1. unfold call_method, bind, deref.
  destruct (heap b !! l) as [ord|]; [|now split].
  destruct (order_submit false ord) as [[[]|e] ord']; now split.
Qed.

(** C6: [orderstatus] of an order whose reference is not in the registry
    raises [KeyError] and returns no status; [submit] with [checksubmit]
    on registers nothing (it stops with an exception at
    [self.orders.append]), so the lookup of an order that was only
    submitted that way fails the same. *)
Theorem orderstatus_unregistered b l ord :
  heap b !! l = Some ord ->
  orders b !! ref ord = None ->
  orderstatus l b = (Raise KeyError, b) /\
  (p_checksubmit b = true ->
   is_ok (fst (submit l b)) = false /\
   orders (snd (submit l b)) !! ref ord = None /\
   forall l1 ord1,
     heap (snd (submit l b)) !! l1 = Some ord1 -> ref ord1 = ref ord ->
     orderstatus l1 (snd (submit l b)) = (Raise KeyError, snd (submit l b))).
Proof.
  assert (forall b1 l1 ord1, heap b1 !! l1 = Some ord1 ->
            orders b1 !! ref ord1 = None ->
            orderstatus l1 b1 = (Raise KeyError, b1)) as Hlookup.
  { intros b1 l1 ord1 H1 H2. unfold orderstatus, bind.
    now rewrite (deref_Some _ _ _ H1), (orders_getitem_None _ _ H2). }
  intros Hl Hr. split; [now apply (Hlookup b l ord)|].
  intros Hcs. destruct (submit_checked_keeps_orders b l Hcs) as [Ho Hf].
  split; [exact Hf|]. split; [now rewrite Ho|].
  intros l1 ord1 H1 Href. apply (Hlookup _ l1 ord1 H1).
  now rewrite Href, Ho.
Qed.

(** *** The notification queue *)

(** C7: on an empty queue [get_notification] returns [None], raises nothing
    and leaves the state as it is, however often it is called. *)
Theorem poll_empty n b :
  notifs b = [] ->
  get_notification b = (Ok None, b) /\
  poll n b = (repeat (Ok None) n, b).
Proof.
  intros He.
  assert (get_notification b = (Ok None, b)) as Hg
    by (unfold get_notification; now rewrite He).
  split; [exact Hg|].
  induction n as [|n IH]; [reflexivity|].
  cbn [poll repeat]. now rewrite Hg, IH.
Qed.

(** X3: the first definition of [get_notification], which the second
    shadows, answers the same and leaves the same state, on every queue. *)
Lemma get_notification_first_eq b :
  get_notification_first b = get_notification b.
Proof.
  unfold get_notification_first, notifs_popleft, get_notification.
  now destruct (notifs b).
Qed.

End Theory.

(** ** The theorems at concrete runs *)

Import Run.

(** C1, counterexample: after [buy(size=10)], [_submit(1)], [_accept(1)]
    and a fill of the whole size at 100 with no commission, the
    specification's sum gives 9000 while the broker still holds its
    starting 10000. *)
Lemma fill_cash_counterexample :
  cash (run_fills 1 [(10%float, 100%float)] b_accepted)
  <> Spec.cash_after_fills (startingcash b_accepted)
       [(10%float, 100%float, 0%float)].
Proof.
  intros H.
  apply (f_equal (fun x => PrimFloat.eqb x 10000%float)) in H.
  vm_compute in H. discriminate.
Qed.

(** C2: order 1, a buy of 10 that has been accepted, is filled with 4 at
    100.  The call stops with [TypeError] at the position lookup; the
    order is still [Accepted] with nothing executed and 10 remaining, not
    [Partial] with 4 executed, and no notification has been queued. *)
Lemma fill_stops_before_booking :
  _fill 1 4 100 b_accepted = (Raise TypeError, b_accepted) /\
  (status <$> heap b_accepted !! 0%nat) = Some Accepted /\
  (od_size ∘ executed <$> heap b_accepted !! 0%nat) = Some 0%float /\
  (od_remsize ∘ executed <$> heap b_accepted !! 0%nat) = Some 10%float /\
  (size <$> heap b_accepted !! 0%nat) = Some 10%float.
Proof.
  split; [|repeat split].
  eapply _fill_registered; reflexivity.
Qed.

(** C3, counterexample: order 1 is registered and has been rejected, a
    terminal state; [_accept(1)] does not fail, it returns and leaves the
    order [Accepted]. *)
Lemma accept_after_reject_counterexample :
  orders b_rejected !! 1 = Some 0%nat /\
  (terminal ∘ status <$> heap b_rejected !! 0%nat) = Some true /\
  ~ Spec.fails_leaving_order (_accept 1) 0%nat b_rejected.
Proof.
  repeat split. intros [[e He] _]. vm_compute in He. discriminate.
Qed.

(** C3, witness: the rejected order 1 again; [_accept(1)] returns, the
    order is [Accepted] and one snapshot has joined the queue. *)
Lemma status_callbacks_unguarded_witness :
  fst (_accept 1 b_rejected) = Ok tt /\
  (status <$> heap (snd (_accept 1 b_rejected)) !! 0%nat) = Some Accepted /\
  notifs (snd (_accept 1 b_rejected)) = notifs b_rejected ++ [Some 3%nat].
Proof.
  edestruct (status_callbacks_unguarded (C := Backtrader.bt) TAccept
               (order_accept false) b_rejected 1 0%nat _
               eq_refl eq_refl eq_refl) as (H1 & H2 & H3).
  split; [exact H1|]. split; [|exact H3].
  change (_accept 1 b_rejected) with (run_transition TAccept 1 b_rejected).
  rewrite H2. reflexivity.
Defined.

(** C9, witness: [_accept(1)] on the submitted order 1 returns and the queue
    has grown by the one snapshot at address 2. *)
Lemma transition_notifies_once_witness :
  notifs (snd (_accept 1 (after (_submit 1) b_bought)))
  = notifs (after (_submit 1) b_bought) ++ [Some 2%nat].
Proof.
  apply (transition_notifies_once (C := Backtrader.bt) TAccept 1
           (after (_submit 1) b_bought)
           (snd (_accept 1 (after (_submit 1) b_bought)))).
  reflexivity.
Defined.

(** C4, counterexample: [buy(size=0)] on a fresh broker does not fail; it
    returns the store's answer and order 1 is in the registry. *)
Lemma buy_zero_size_counterexample :
  ~ Spec.fails_unregistered (buy (market 0) []) b0 /\
  orders (snd (buy (market 0) [] b0)) !! 1 = Some 0%nat.
Proof.
  split; [|reflexivity]. intros [[e He] _]. vm_compute in He. discriminate.
Qed.

(** C4, witness: the same call, through the theorem: the order of size 0
    is built, stored at address 0 and registered under reference 1. *)
Lemma place_registers_any_size_witness :
  fst (buy (market 0) [] b0) = Ok (Some 0%nat) /\
  orders (snd (buy (market 0) [] b0)) !! 1 = Some 0%nat /\
  (p_size ∘ params <$> heap (snd (buy (market 0) [] b0)) !! 0%nat)
  = Some 0%float.
Proof.
  edestruct (place_registers_any_size (C := Backtrader.bt) Buy (market 0) []
               b0 _ eq_refl eq_refl) as (H1 & _ & H3 & H4 & _).
  split; [exact H1|]. split.
  - rewrite H3. reflexivity.
  - rewrite H4. reflexivity.
Defined.

(** C5, witness: order 1 has been cancelled; [cancel] on it returns [None]
    and the state is the same. *)
Lemma cancel_cancelled_noop_witness :
  cancel 0%nat b_cancelled = (Ok None, b_cancelled).
Proof.
  destruct (cancel_cancelled_noop (C := Backtrader.bt) b_cancelled 0%nat _
              eq_refl eq_refl) as (H1 & _ & _ & H4).
  rewrite (surjective_pairing (cancel 0%nat b_cancelled)), H1, H4.
  reflexivity.
Defined.

(** C6, witness: the order with reference 7 was built outside the broker.
    Its status lookup raises [KeyError], before and after a [submit] with
    [checksubmit] on, which marks it [Submitted] and stops with
    [AttributeError]. *)
Lemma orderstatus_unregistered_witness :
  orderstatus 1%nat b_stray = (Raise KeyError, b_stray) /\
  fst (submit 1%nat b_stray) = Raise AttributeError /\
  (status <$> heap (snd (submit 1%nat b_stray)) !! 1%nat) = Some Submitted /\
  orderstatus 1%nat (snd (submit 1%nat b_stray))
  = (Raise KeyError, snd (submit 1%nat b_stray)).
Proof.
  destruct (orderstatus_unregistered (C := Backtrader.bt) b_stray 1%nat stray
              eq_refl eq_refl) as [H1 H2].
  destruct (H2 eq_refl) as (_ & _ & H3).
  split; [exact H1|]. split; [reflexivity|]. split; [reflexivity|].
  eapply H3; reflexivity.
Defined.

(** C7, witness: three polls of the empty queue left by [buy]. *)
Lemma poll_empty_witness :
  poll 3 b_bought = ([Ok None; Ok None; Ok None], b_bought).
Proof.
  apply (poll_empty (C := Backtrader.bt) 3 b_bought). reflexivity.
Defined.

(** ** Further properties *)

Section Coverage.

Context {C : Collaborators}.

Implicit Types (b : Broker) (l : nat) (ord : Order) (oref : Z).

(** *** Draining the queue *)

Lemma set_notifs_id b : set_notifs (notifs b) b = b.
Proof. now destruct b. Qed.

Lemma poll_take_drop n b :
  poll n b =
  (map Ok (take n (notifs b)) ++ replicate (n - length (notifs b)) (Ok None),
   set_notifs (drop n (notifs b)) b).
Proof.
  revert b. induction n as [|n IH]; intros b.
  - now destruct b.
  - cbn [poll]. unfold get_notification.
    destruct (notifs b) as [|x rest] eqn:Hq.
    + rewrite IH, Hq, take_nil, drop_nil. cbn.
      now rewrite Nat.sub_0_r.
    + rewrite IH. reflexivity.
Qed.

(** X1: polling returns the queued entries oldest first, each once; the queue
    is empty after as many polls as it held entries, and every further poll
    returns [None]. *)
Theorem poll_drains_in_order k b :
  poll (length (notifs b) + k) b =
  (map Ok (notifs b) ++ replicate k (Ok None), set_notifs [] b).
Proof.
  rewrite poll_take_drop.
  rewrite take_ge, drop_ge by lia.
  now replace (length (notifs b) + k - length (notifs b))%nat with k by lia.
Qed.

(** X2: the boundary marker of [next] goes to the back of the queue and
    reads as [None], the answer of an empty queue; on an empty queue,
    [next] followed by one poll gives [None] and the state [next] found. *)
Theorem next_marker_reads_as_empty k b :
  poll (length (notifs b) + 1 + k) (snd (next b)) =
  (map Ok (notifs b) ++ Ok None :: replicate k (Ok None), set_notifs [] b) /\
  get_notification (snd (next (set_notifs [] b))) =
  (Ok None, set_notifs [] b).
Proof.
  split; [|reflexivity].
  rewrite poll_take_drop. cbn [next modify snd notifs set_notifs].
  rewrite take_ge, drop_ge by (rewrite length_app; cbn; lia).
  rewrite length_app. cbn [length].
  replace (length (notifs b) + 1 + k - (length (notifs b) + 1))%nat
    with k by lia.
  rewrite map_app, <- app_assoc. reflexivity.
Qed.

(** *** Cash *)

(** A frame proof, one statement at a time. *)
Ltac kept :=
  repeat lazymatch goal with
    | |- keeps _ (bind _ _) => apply keeps_bind; [|intros ?]
    | |- keeps _ (if _ then _ else _) => apply keeps_if
    | |- keeps _ (modify _) => apply keeps_modify; intros; reflexivity
    | |- keeps _ (alloc _) => apply keeps_alloc; intros; reflexivity
    | |- keeps _ (call_method _ _) =>
        apply keeps_call_method; intros; reflexivity
    | |- keeps _ (store_call _ _) =>
        apply keeps_store_call; intros; reflexivity
    | |- keeps _ (deref _) => apply keeps_deref
    | |- keeps _ (orders_getitem _) => apply keeps_orders_getitem
    | |- keeps _ (ret _) => apply keeps_ret
    | |- keeps _ (raise _) => apply keeps_raise
    | |- keeps _ (lift _) => apply keeps_lift
    | H : forall l, keeps _ (notify l) |- keeps _ (notify _) => apply H
    | |- keeps _ (fun _ => _) => intros ?; reflexivity
    end.

Lemma run_call_cash c b :
  (cash (run_call c b), startingcash (run_call c b), p_cash (run_call c b)) =
  match c with
  | SetCash x => (x, x, x)
  | _ => (cash b, startingcash b, p_cash b)
  end.
Proof.
  pose (f := fun b => (cash b, startingcash b, p_cash b)).
  change (f (run_call c b) = match c with
                             | SetCash x => (x, x, x)
                             | _ => f b
                             end).
  assert (forall l, keeps f (notify l)) as Hnotify
    by (intros l; unfold notify; kept).
  destruct c as [| | | x | datas | x | d | l | l | t oref | side p kwargs
                | l | l]; cbn [run_call]; try reflexivity.
  - unfold get_notification. now destruct (notifs b).
  - unfold getposition. now destruct (positions b !! d).
  - assert (keeps f (orderstatus l)) as H by (unfold orderstatus; kept).
    apply H.
  - assert (keeps f (submit l)) as H
      by (unfold submit, orders_append; kept).
    apply H.
  - destruct (transition_method t) as [m|] eqn:Ht.
    + rewrite (run_transition_status _ _ _ Ht).
      assert (keeps f (status_callback m oref)) as H
        by (unfold status_callback; kept).
      apply H.
    + destruct t; try discriminate. cbn.
      now destruct (_fill_raises b oref sz price) as [e ->].
  - assert (keeps f (place side p kwargs)) as H
      by (unfold place, next_ref, orders_setitem; kept).
    destruct side; apply H.
  - assert (keeps f (cancel l)) as H by (unfold cancel; kept).
    apply H.
  - apply Hnotify.
Qed.

Lemma run_calls_snoc cs c b :
  run_calls (cs ++ [c]) b = run_call c (run_calls cs b).
Proof. unfold run_calls. now rewrite fold_left_app. Qed.

Lemma last_cash_snoc cs c c0 :
  last_cash (cs ++ [c]) c0 =
  match c with SetCash x => x | _ => last_cash cs c0 end.
Proof. unfold last_cash. now rewrite fold_left_app. Qed.

(** X4: over any sequence of calls, [get_cash] answers with the amount of
    the most recent [set_cash], or with the cash held at the start when
    there was none: nothing else moves cash. *)
Theorem get_cash_follows_set_cash cs b :
  get_cash (run_calls cs b) = (Ok (last_cash cs (cash b)), run_calls cs b).
Proof.
  unfold get_cash. f_equal. f_equal.
  induction cs as [|c cs IH] using rev_ind; [reflexivity|].
  rewrite run_calls_snoc, last_cash_snoc.
  pose proof (f_equal (fun t => fst (fst t))
                (run_call_cash c (run_calls cs b))) as H.
  cbn [fst] in H. rewrite H. now destruct c.
Qed.

(** X5: in every state reached from [__init__], current cash, starting cash
    and the [cash] parameter are one and the same number. *)
Theorem cash_is_starting_cash cs (c : float) (k : bool) (s : Store) :
  cash (run_calls cs (init c k s)) = startingcash (run_calls cs (init c k s)) /\
  cash (run_calls cs (init c k s)) = p_cash (run_calls cs (init c k s)).
Proof.
  induction cs as [|x cs IH] using rev_ind; [now split|].
  rewrite run_calls_snoc.
  pose proof (run_call_cash x (run_calls cs (init c k s))) as H.
  pose proof (f_equal (fun t => fst (fst t)) H) as H1.
  pose proof (f_equal (fun t => snd (fst t)) H) as H2.
  pose proof (f_equal snd H) as H3.
  cbn [fst snd] in H1, H2, H3. rewrite H1, H2, H3.
  destruct IH as [IH1 IH2]. now destruct x.
Qed.


(** *** Positions *)

(** X6: [getposition] never raises.  For a data it has a position for, it
    returns that position and changes nothing; for any other it binds the
    data to a new position of size and price zero and returns that one.
    The positions of other datas are untouched, and asking again returns
    the same position without a further change. *)
Theorem getposition_lazy b (d : nat) :
  let p := default Position_new (positions b !! d) in
  let b' := snd (getposition d b) in
  fst (getposition d b) = Ok p /\
  positions b' !! d = Some p /\
  (forall d', d' <> d -> positions b' !! d' = positions b !! d') /\
  (is_Some (positions b !! d) -> b' = b) /\
  getposition d b' = (Ok p, b').
Proof.
  cbv zeta. destruct (positions b !! d) as [p|] eqn:Hd.
  - assert (getposition d b = (Ok p, b)) as ->
      by (unfold getposition; now rewrite Hd).
    cbn [fst snd default]. repeat split; try assumption.
    unfold getposition. now rewrite Hd.
  - assert (getposition d b =
            (Ok Position_new,
             set_positions (<[d := Position_new]> (positions b)) b)) as ->
      by (unfold getposition; now rewrite Hd).
    cbn [fst snd default positions set_positions]. repeat split.
    + apply lookup_insert_eq.
    + intros d' Hne. now rewrite lookup_insert_ne.
    + now intros [? [=]].
    + unfold getposition. cbn [positions set_positions].
      now rewrite lookup_insert_eq.
Qed.

(** *** Unknown references *)

(** X7: each of the six callbacks, called with a reference that is not in
    the registry, raises [KeyError] and leaves the state as it was. *)
Theorem callbacks_unknown_ref t oref b :
  orders b !! oref = None ->
  run_transition t oref b = (Raise KeyError, b).
Proof.
  intros Hr.
  destruct t; cbn [run_transition];
    unfold _submit, _accept, _reject, _cancel, _expire, _fill, bind;
    now rewrite (orders_getitem_None _ _ Hr).
Qed.

(** *** Status lookup and cancelling *)

(** X8: [orderstatus] answers with the status of the order the registry
    holds under the argument's reference, which need not be the argument:
    asked about a snapshot it reports the live order.  The state is not
    changed. *)
Theorem orderstatus_reads_registry b l ord l0 live :
  heap b !! l = Some ord ->
  orders b !! ref ord = Some l0 ->
  heap b !! l0 = Some live ->
  orderstatus l b = (Ok (status live), b).
Proof.
  intros Hl Hr Hl0. unfold orderstatus, bind.
  now rewrite (deref_Some _ _ _ Hl), (orders_getitem_Some _ _ _ Hr),
    (deref_Some _ _ _ Hl0).
Qed.

(** X9: [cancel] on a registered order that is not [Cancelled] only
    forwards the request: the answer and the new store state are those of
    the store's [order_cancel]; the order, the registry and the queue are as
    before, so the status changes only when the store calls back. *)
Theorem cancel_delegates b l ord l0 :
  heap b !! l = Some ord ->
  orders b !! ref ord = Some l0 ->
  status ord <> Cancelled ->
  let b' := snd (cancel l b) in
  fst (cancel l b) = fst (store_order_cancel l ord (o b)) /\
  o b' = snd (store_order_cancel l ord (o b)) /\
  heap b' = heap b /\ orders b' = orders b /\ notifs b' = notifs b.
Proof.
  intros Hl Hr Hs. cbv zeta. unfold cancel, bind, store_call, bind.
  rewrite (deref_Some _ _ _ Hl), (orders_getitem_Some _ _ _ Hr).
  rewrite bool_decide_eq_false_2 by exact Hs.
  rewrite (deref_Some _ _ _ Hl).
  now destruct (store_order_cancel l ord (o b)).
Qed.

(** *** Submitting *)

Lemma submit_checked_eq b l ord :
  p_checksubmit b = true ->
  heap b !! l = Some ord ->
  submit l b =
  match fst (order_submit false ord) with
  | Ok _ =>
      (Raise AttributeError,
       set_submitted (submitted b ++ [l])
         (set_heap (<[l := snd (order_submit false ord)]> (heap b)) b))
  | Raise e =>
      (Raise e, set_heap (<[l := snd (order_submit false ord)]> (heap b)) b)
  end.
Proof.
  intros Hcs Hl.
  unfold submit, bind, orders_append, raise, modify. cbn beta.
  rewrite Hcs, (call_method_eq _ _ _ _ Hl).
  now destruct (fst (order_submit false ord)) as [[]|e].
Qed.

Lemma submit_unchanged b l :
  p_checksubmit b = false \/ heap b !! l = None ->
  snd (submit l b) = b.
Proof.
  intros H. unfold submit, bind, raise. cbn beta.
  destruct (p_checksubmit b); [|reflexivity].
  destruct H as [H|H]; [discriminate|].
  unfold call_method, bind. now rewrite (deref_None _ _ H).
Qed.

(** X10: with [checksubmit] on, [submit] never returns.  It runs the order's
    [submit()]; when that returns the order joins the [submitted] deque and
    the call stops with [AttributeError] at [self.orders.append]; the
    registry and the notification queue are as before, so the submission
    is never notified. *)
Theorem submit_checked_stops b l ord :
  p_checksubmit b = true ->
  heap b !! l = Some ord ->
  let r := fst (order_submit false ord) in
  let b' := snd (submit l b) in
  fst (submit l b) = match r with
                     | Ok _ => Raise AttributeError
                     | Raise e => Raise e
                     end /\
  heap b' = <[l := snd (order_submit false ord)]> (heap b) /\
  submitted b' = (if is_ok r then submitted b ++ [l] else submitted b) /\
  orders b' = orders b /\ notifs b' = notifs b.
Proof.
  intros Hcs Hl. cbv zeta. rewrite (submit_checked_eq _ _ _ Hcs Hl).
  now destruct (fst (order_submit false ord)) as [[]|e].
Qed.

(** *** Placing, then asking *)

Lemma place_eq side p kwargs b ord :
  new_order side p (refbasis b) = Ok ord ->
  fst (order_addinfo kwargs ord) = Ok tt ->
  place side p kwargs b =
  (fst (store_order_create (length (heap b))
          (snd (order_addinfo kwargs ord)) (o b)),
   set_o (snd (store_order_create (length (heap b))
                 (snd (order_addinfo kwargs ord)) (o b)))
     (set_orders (<[ref (snd (order_addinfo kwargs ord))
                    := length (heap b)]> (orders b))
        (set_heap (heap b ++ [snd (order_addinfo kwargs ord)])
           (set_refbasis (refbasis b + 1) b)))).
Proof.
  intros Hnew Hadd.
  unfold place, bind, next_ref, lift, alloc, call_method, bind, deref,
    orders_setitem, modify, store_call, bind, deref. cbn.
  rewrite Hnew. cbn.
  rewrite lookup_app_r by lia. rewrite Nat.sub_diag. cbn.
  destruct (order_addinfo kwargs ord) as [r ord'] eqn:Ha. cbn in Hadd.
  subst r. cbn.
  rewrite insert_app_r_alt by lia. rewrite Nat.sub_diag. cbn.
  rewrite lookup_app_r by lia. rewrite Nat.sub_diag. cbn.
  rewrite lookup_app_r by lia. rewrite Nat.sub_diag. cbn.
  now destruct (store_order_create (length (heap b)) ord' (o b)) as [r s'].
Qed.

(** X11: an order that [buy] or [sell] has placed can be asked for at once:
    whatever the store answered, [orderstatus] of the new order returns the
    status the constructor and [addinfo] left it with, and every reference
    registered before is still registered. *)
Theorem place_then_orderstatus side p kwargs b ord :
  new_order side p (refbasis b) = Ok ord ->
  fst (order_addinfo kwargs ord) = Ok tt ->
  let call := match side with Buy => buy p kwargs | Sell => sell p kwargs end in
  let b' := snd (call b) in
  orderstatus (length (heap b)) b' =
  (Ok (status (snd (order_addinfo kwargs ord))), b') /\
  forall r, is_Some (orders b !! r) -> is_Some (orders b' !! r).
Proof.
  intros Hnew Hadd. cbv zeta.
  assert (match side with Buy => buy p kwargs | Sell => sell p kwargs end
          = place side p kwargs) as -> by now destruct side.
  rewrite (place_eq _ _ _ _ _ Hnew Hadd). cbn [snd]. split.
  - set (ord' := snd (order_addinfo kwargs ord)).
    set (b1 := set_o _ _).
    assert (heap b1 !! length (heap b) = Some ord') as Hl.
    { subst b1. cbn [heap set_o set_orders set_heap].
      rewrite lookup_app_r by lia. now rewrite Nat.sub_diag. }
    assert (orders b1 !! ref ord' = Some (length (heap b))) as Hr
      by apply lookup_insert_eq.
    unfold orderstatus, bind.
    now rewrite (deref_Some _ _ _ Hl), (orders_getitem_Some _ _ _ Hr),
      (deref_Some _ _ _ Hl).
  - intros r Hr. cbn. apply lookup_insert_is_Some.
    destruct (decide (ref (snd (order_addinfo kwargs ord)) = r)); auto.
Qed.


(** *** Runs of callbacks *)

Lemma run_transition_notifs t oref b :
  notifs (snd (run_transition t oref b)) =
  notifs b ++ (if is_ok (fst (run_transition t oref b))
               then [Some (length (heap b))] else []).
Proof.
  destruct (transition_method t) as [m|] eqn:Ht.
  - rewrite (run_transition_status _ _ _ Ht).
    destruct (orders b !! oref) as [l|] eqn:Hr.
    + destruct (heap b !! l) as [ord|] eqn:Hl.
      * rewrite (status_callback_eq _ _ _ _ _ Hr Hl).
        destruct (fst (m ord)) as [[]|e]; cbn; [reflexivity|].
        now rewrite app_nil_r.
      * unfold status_callback, bind, call_method, bind.
        rewrite (orders_getitem_Some _ _ _ Hr), (deref_None _ _ Hl). cbn.
        now rewrite app_nil_r.
    + unfold status_callback, bind.
      rewrite (orders_getitem_None _ _ Hr). cbn. now rewrite app_nil_r.
  - destruct t; try discriminate. cbn [run_transition].
    destruct (_fill_raises b oref sz price) as [e ->]. cbn.
    now rewrite app_nil_r.
Qed.

(** X12: over any run of store callbacks the queue only gains entries at its
    back, one for each call that returned and none for a call that raised:
    nothing queued is lost and no transition is notified twice. *)
Theorem callbacks_count_notifications cs b :
  length (fst (run_callbacks cs b)) = length cs /\
  length (notifs (snd (run_callbacks cs b))) =
    (length (notifs b) + successes (fst (run_callbacks cs b)))%nat /\
  notifs b `prefix_of` notifs (snd (run_callbacks cs b)).
Proof.
  revert b. induction cs as [|[t oref] cs IH]; intros b.
  - cbn. repeat split; [lia|reflexivity].
  - cbn [run_callbacks].
    pose proof (run_transition_notifs t oref b) as Hn.
    destruct (run_transition t oref b) as [r b1]. cbn [fst snd] in Hn.
    destruct (IH b1) as (IH1 & IH2 & IH3).
    destruct (run_callbacks cs b1) as [rs b2]. cbn [fst snd] in *.
    split; [cbn; now rewrite IH1|]. split.
    + rewrite IH2, Hn, length_app. cbn [successes].
      destruct (is_ok r); cbn; lia.
    + etransitivity; [|exact IH3]. rewrite Hn. now apply prefix_app_r.
Qed.

(** *** What the broker holds on to *)

Lemma grows_refl b : grows b b.
Proof. unfold grows. repeat split; auto. Qed.

Lemma grows_trans b1 b2 b3 : grows b1 b2 -> grows b2 b3 -> grows b1 b3.
Proof.
  intros (H1 & H2 & H3 & H4 & H5) (G1 & G2 & G3 & G4 & G5).
  unfold grows. repeat split.
  - lia.
  - auto.
  - intros r l Hl. destruct (G3 r l Hl) as [Hl'|]; [|now right].
    destruct (H3 r l Hl') as [|]; [now left|right; lia].
  - intros l Hl. destruct (G4 l Hl) as [Hl'|]; [|now right].
    destruct (H4 l Hl') as [|]; [now left|right; lia].
  - intros l Hl. destruct (G5 l Hl) as [Hl'|]; [|now right].
    destruct (H5 l Hl') as [|]; [now left|right; lia].
Qed.

Lemma grows_same_refs b b' :
  (heap b', orders b', submitted b', notifs b') =
  (heap b, orders b, submitted b, notifs b) ->
  grows b b'.
Proof.
  intros [= Hh Ho Hs Hn]. unfold grows. rewrite Hh, Ho, Hs, Hn.
  repeat split; auto.
Qed.

Lemma notify_grows b l : grows b (snd (notify l b)).
Proof.
  destruct (heap b !! l) as [ord|] eqn:Hl.
  - rewrite (notify_eq _ _ _ Hl). unfold grows. cbn.
    rewrite length_app. cbn. repeat split; auto; try lia.
    intros l' [Hl'|Hl']%elem_of_app; [now left|right].
    apply list_elem_of_singleton in Hl'. injection Hl' as ->. lia.
  - unfold notify, bind. rewrite (deref_None _ _ Hl). apply grows_refl.
Qed.

Lemma run_transition_grows t oref b : grows b (snd (run_transition t oref b)).
Proof.
  destruct (transition_method t) as [m|] eqn:Ht.
  - rewrite (run_transition_status _ _ _ Ht).
    destruct (orders b !! oref) as [l|] eqn:Hr.
    + destruct (heap b !! l) as [ord|] eqn:Hl.
      * rewrite (status_callback_eq _ _ _ _ _ Hr Hl).
        destruct (fst (m ord)) as [[]|e]; unfold grows; cbn;
          rewrite ?length_app, ?length_insert; cbn;
          repeat split; auto; try lia.
        intros l' [Hl'|Hl']%elem_of_app; [now left|right].
        apply list_elem_of_singleton in Hl'. injection Hl' as ->. lia.
      * unfold status_callback, bind, call_method, bind.
        rewrite (orders_getitem_Some _ _ _ Hr), (deref_None _ _ Hl).
        apply grows_refl.
    + unfold status_callback, bind.
      rewrite (orders_getitem_None _ _ Hr). apply grows_refl.
  - destruct t; try discriminate. cbn [run_transition].
    destruct (_fill_raises b oref sz price) as [e ->]. apply grows_refl.
Qed.

Lemma submit_grows b l : grows b (snd (submit l b)).
Proof.
  destruct (p_checksubmit b) eqn:Hcs;
    [|rewrite submit_unchanged by (now left); apply grows_refl].
  destruct (heap b !! l) as [ord|] eqn:Hl;
    [|rewrite submit_unchanged by (now right); apply grows_refl].
  rewrite (submit_checked_eq _ _ _ Hcs Hl).
  assert (l < length (heap b))%nat as Hlt by now apply lookup_lt_Some in Hl.
  destruct (fst (order_submit false ord)) as [[]|e]; unfold grows; cbn;
    rewrite ?length_insert; repeat split; auto.
  intros l' [Hl'|Hl']%elem_of_app; [now left|right].
  now apply list_elem_of_singleton in Hl' as ->.
Qed.

Lemma place_grows side p kwargs b : grows b (snd (place side p kwargs b)).
Proof.
  unfold place, bind at 1, next_ref. unfold bind at 1, lift.
  destruct (new_order side p (refbasis b)) as [ord|e];
    [|now apply grows_same_refs].
  unfold bind at 1, alloc. cbn [heap set_heap set_refbasis].
  set (b1 := set_heap _ _).
  assert (heap b1 !! length (heap b) = Some ord) as Hl.
  { subst b1. cbn. rewrite lookup_app_r by lia. now rewrite Nat.sub_diag. }
  unfold bind at 1. rewrite (call_method_eq _ _ _ _ Hl).
  set (b2 := set_heap _ b1).
  assert (length (heap b2) = S (length (heap b))) as Hlen.
  { subst b2 b1. cbn. rewrite length_insert, length_app. cbn. lia. }
  assert (heap b2 !! length (heap b) = Some (snd (order_addinfo kwargs ord)))
    as Hl2.
  { subst b2. cbn. apply list_lookup_insert_eq.
    now apply lookup_lt_Some in Hl. }
  assert (orders b2 = orders b /\ submitted b2 = submitted b /\
          notifs b2 = notifs b) as (Ho & Hs & Hn) by now subst b2 b1.
  destruct (fst (order_addinfo kwargs ord)) as [[]|e].
  - unfold bind at 1. rewrite (deref_Some _ _ _ Hl2).
    unfold bind at 1, orders_setitem, modify, store_call, bind.
    set (b3 := set_orders _ b2).
    assert (heap b3 = heap b2) as Hh3 by reflexivity.
    unfold deref. rewrite Hh3, Hl2.
    destruct (store_order_create _ _ _) as [r s']. cbn [snd].
    set (b4 := set_o s' b3).
    assert (heap b4 = heap b2 /\
            orders b4 = <[ref (snd (order_addinfo kwargs ord))
                          := length (heap b)]> (orders b) /\
            submitted b4 = submitted b /\ notifs b4 = notifs b)
      as (E1 & E2 & E3 & E4).
    { subst b4 b3. cbn [heap orders submitted notifs set_o set_orders].
      now rewrite Ho, Hs, Hn. }
    unfold grows. rewrite E1, E2, E3, E4, Hlen. repeat split; auto.
    + intros r0 Hr0. apply lookup_insert_is_Some.
      destruct (decide (ref (snd (order_addinfo kwargs ord)) = r0)); auto.
    + intros r0 l0 [[_ <-]|[_ Hold]]%lookup_insert_Some; [right; lia|now left].
  - cbn [snd]. unfold grows. rewrite Hlen, Ho, Hs, Hn. repeat split; auto.
Qed.

Lemma run_call_grows c b : grows b (run_call c b).
Proof.
  pose (f := fun b => (heap b, orders b, submitted b, notifs b)).
  destruct c as [| | | x | datas | x | d | l | l | t oref | side p kwargs
                | l | l]; cbn [run_call];
    try (apply grows_same_refs; reflexivity).
  - unfold get_notification. destruct (notifs b) as [|x rest] eqn:Hq;
      [apply grows_refl|].
    unfold grows. cbn. rewrite Hq. repeat split; auto.
    intros l Hl. left. now apply elem_of_cons; right.
  - unfold grows. cbn. repeat split; auto.
    intros l [Hl|Hl]%elem_of_app; [now left|].
    now apply list_elem_of_singleton in Hl.
  - apply grows_same_refs. unfold getposition.
    now destruct (positions b !! d).
  - assert (keeps f (orderstatus l)) as H by (unfold orderstatus; kept).
    apply grows_same_refs, H.
  - apply submit_grows.
  - apply run_transition_grows.
  - destruct side; apply place_grows.
  - assert (keeps f (cancel l)) as H by (unfold cancel; kept).
    apply grows_same_refs, H.
  - apply notify_grows.
Qed.

Lemma run_calls_grows cs b : grows b (run_calls cs b).
Proof.
  induction cs as [|c cs IH] using rev_ind; [apply grows_refl|].
  rewrite run_calls_snoc.
  eapply grows_trans; [exact IH|apply run_call_grows].
Qed.

Lemma valid_refs_grows b b' : valid_refs b -> grows b b' -> valid_refs b'.
Proof.
  intros (V1 & V2 & V3) (H1 & H2 & H3 & H4 & H5). unfold valid_refs.
  rewrite Forall_forall in V2. rewrite Forall_forall in V3.
  repeat split.
  - intros r l Hl. destruct (H3 r l Hl) as [Hold|]; [|assumption].
    specialize (V1 r l Hold). lia.
  - apply Forall_forall. intros l Hl.
    destruct (H4 l Hl) as [Hold|]; [|assumption].
    specialize (V2 l Hold). lia.
  - apply Forall_forall. intros [l|] Hl; [|exact I].
    destruct (H5 l Hl) as [Hold|]; [|assumption].
    specialize (V3 (Some l) Hold). cbn in V3. lia.
Qed.

(** X13: no call removes anything.  Over any sequence of calls the object
    store never gets shorter and a reference that is in the registry stays
    in the registry, so an order that could be looked up once can be looked
    up for the rest of the session. *)
Theorem calls_never_forget cs b :
  (length (heap b) <= length (heap (run_calls cs b)))%nat /\
  forall r, is_Some (orders b !! r) -> is_Some (orders (run_calls cs b) !! r).
Proof.
  destruct (run_calls_grows cs b) as (H1 & H2 & _). now split.
Qed.

(** X14: in every state reached from [__init__] by any calls, with any
    arguments, every reference in the registry, in the [submitted] deque
    and in the notification queue names an object of the store. *)
Theorem reachable_refs_valid cs (c : float) (k : bool) (s : Store) :
  valid_refs (run_calls cs (init c k s)).
Proof.
  apply (valid_refs_grows (init c k s)); [|apply run_calls_grows].
  unfold valid_refs. cbn. repeat split; try constructor.
  intros r l Hl. now rewrite lookup_empty in Hl.
Qed.

End Coverage.

(** ** The further properties at concrete runs *)

Import Run Run2.

(** X7, witness: no order was ever placed on the fresh broker; a fill for
    reference 5 raises [KeyError]. *)
Lemma callbacks_unknown_ref_witness :
  _fill 5 1 100 b0 = (Raise KeyError, b0).
Proof.
  apply (callbacks_unknown_ref (C := Backtrader.bt) (TFill 1 100) 5 b0).
  reflexivity.
Defined.

(** X8, witness: asked about the snapshot [_submit(1)] queued, which reads
    [Submitted], [orderstatus] answers [Accepted], the live order's
    status. *)
Lemma orderstatus_reads_registry_witness :
  (status <$> heap b_accepted !! snapshot_addr) = Some Submitted /\
  orderstatus snapshot_addr b_accepted = (Ok Accepted, b_accepted).
Proof.
  split; [reflexivity|].
  exact (orderstatus_reads_registry (C := Backtrader.bt) b_accepted
           snapshot_addr _ 0%nat _ eq_refl eq_refl eq_refl).
Defined.

(** X9, witness: cancelling the accepted order 1 reaches the store, which
    logs the request; the order is still [Accepted]. *)
Lemma cancel_delegates_witness :
  fst (cancel 0%nat b_accepted) = Ok None /\
  o (snd (cancel 0%nat b_accepted))
  = [Backtrader.Create 0; Backtrader.CancelReq 0] /\
  heap (snd (cancel 0%nat b_accepted)) = heap b_accepted.
Proof.
  edestruct (cancel_delegates (C := Backtrader.bt) b_accepted 0%nat _ 0%nat
               eq_refl eq_refl) as (H1 & H2 & H3 & _).
  - discriminate.
  - split; [exact H1|]. split; [exact H2|exact H3].
Defined.

(** X10, witness: [submit] of the order just bought stops with
    [AttributeError]; the order reads [Submitted], sits in the [submitted]
    deque, and the queue is still empty. *)
Lemma submit_checked_stops_witness :
  fst (submit 0%nat b_bought) = Raise AttributeError /\
  submitted (snd (submit 0%nat b_bought)) = [0%nat] /\
  notifs (snd (submit 0%nat b_bought)) = [].
Proof.
  edestruct (submit_checked_stops (C := Backtrader.bt) b_bought 0%nat _
               eq_refl eq_refl) as (H1 & _ & H3 & _ & H5).
  split; [exact H1|]. split; [exact H3|exact H5].
Defined.

(** X11, witness: a [sell] of 3 after the [buy]; the new order, at address 1,
    reads [Created] and order 1 is still registered. *)
Lemma place_then_orderstatus_witness :
  orderstatus 1%nat (snd (sell (market 3) [] b_bought)) =
  (Ok Created, snd (sell (market 3) [] b_bought)) /\
  is_Some (orders (snd (sell (market 3) [] b_bought)) !! 1).
Proof.
  edestruct (place_then_orderstatus (C := Backtrader.bt) Sell (market 3) []
               b_bought _ eq_refl eq_refl) as [H1 H2].
  split; [exact H1|]. apply H2. now exists 0%nat.
Defined.

(** X15, witness: with the position of the data in place, the booking of a
    fill of 4 at 100 on order 1 runs to the end and queues the snapshot at
    address 3. *)
Lemma _fill_booking_notifies_once_witness :
  notifs (snd (_fill_booking 0 0 4 100 b_position)) =
  notifs b_position ++ [Some 3%nat].
Proof.
  apply (_fill_booking_notifies_once (C := Backtrader.bt) 0 0 4 100
           b_position (snd (_fill_booking 0 0 4 100 b_position))).
  vm_compute. reflexivity.
Defined.

(** ** Snapshots and what they share *)

Section SharingTheory.

Context {C : Collaborators}.

Implicit Types (b : Broker) (w : World) (l : nat) (ord : Order) (oref : Z).

Lemma own_part_own_update f o : shared_part (own_update f o) = shared_part o.
Proof. reflexivity. Qed.

Lemma own_part_shared_update gi gp o :
  own_part (shared_update gi gp o) = own_part o.
Proof. reflexivity. Qed.

(** The live order after a callback: as it was, or as its method left it. *)
Lemma run_transition_live_cell t oref b l live :
  orders b !! oref = Some l -> heap b !! l = Some live ->
  exists live',
    heap (snd (run_transition t oref b)) !! l = Some live' /\
    (live' = live \/
     exists m : method, transition_method t = Some m /\ live' = snd (m live)).
Proof.
  intros Hr Hl.
  assert (l < length (heap b))%nat as Hlt by now apply lookup_lt_Some in Hl.
  destruct (transition_method t) as [m|] eqn:Ht.
  - rewrite (run_transition_status _ _ _ Ht),
      (status_callback_eq _ _ _ _ _ Hr Hl).
    exists (snd (m live)). split; [|right; now exists m].
    destruct (fst (m live)) as [[]|e]; cbn.
    + apply lookup_app_l_Some. now apply list_lookup_insert_eq.
    + now apply list_lookup_insert_eq.
  - destruct t; try discriminate. cbn [run_transition].
    destruct (_fill_raises b oref sz price) as [e ->].
    exists live. split; [exact Hl|now left].
Qed.


Lemma run_live_step_snapshot oref l l' ord s w :
  (forall t (m : method) o,
     transition_method t = Some m -> shared_part (snd (m o)) = shared_part o) ->
  l' <> l ->
  snapshot_of oref l l' ord w ->
  snapshot_of oref l l' ord (run_live_step oref l s w) /\
  notifs (broker w) `prefix_of` notifs (broker (run_live_step oref l s w)).
Proof.
  intros Hkeep Hne (Hr & Ho & snap & live & Hs & Hl & Hown & Hsh).
  destruct s as [f|gi gp|t]; cbn [run_live_step].
  - split; [|cbn; rewrite Hl; reflexivity].
    unfold snapshot_of. cbn. rewrite Hl. cbn.
    split; [exact Hr|]. split; [exact Ho|].
    exists snap, (own_update f live). repeat split; try assumption.
    + now rewrite list_lookup_insert_ne.
    + apply list_lookup_insert_eq. now apply lookup_lt_Some in Hl.
  - split; [|reflexivity].
    unfold snapshot_of. cbn.
    split; [exact Hr|]. split; [exact Ho|].
    exists (shared_update gi gp snap), (shared_update gi gp live).
    rewrite !list_lookup_imap, Hs, Hl. cbn.
    rewrite !decide_True by (assumption || reflexivity).
    repeat split; try assumption.
    injection Hsh as Hi Hp. unfold shared_part, shared_update. cbn.
    now rewrite Hi, Hp.
  - unfold w_callback.
    pose proof (run_transition_keeps_orders t oref (broker w)) as Hord.
    destruct (run_transition_other_cell t oref (broker w) l l' snap Hr Hne Hs)
      as [Hs' Hpre].
    destruct (run_transition_live_cell t oref (broker w) l live Hr Hl)
      as (live' & Hl' & Hlive).
    assert (l < length (heap (broker w)))%nat as Hlt
      by now apply lookup_lt_Some in Hl.
    assert (l' < length (heap (broker w)))%nat as Hlt'
      by now apply lookup_lt_Some in Hs.
    destruct (run_transition t oref (broker w)) as [r b'].
    cbn [fst snd] in *. split; [|exact Hpre].
    unfold snapshot_of. cbn [broker copies].
    split; [now rewrite Hord|]. split.
    + unfold origin in *. cbn [copies]. rewrite Hr.
      destruct r as [[]|e]; [|exact Ho].
      rewrite !lookup_insert_ne by lia. exact Ho.
    + exists snap, live'. repeat split; try assumption.
      destruct Hlive as [->|(m & Hm & ->)]; [exact Hsh|].
      now rewrite (Hkeep t m live Hm).
Qed.

Lemma run_live_steps_snapshot oref l l' ord ss w :
  (forall t (m : method) o,
     transition_method t = Some m -> shared_part (snd (m o)) = shared_part o) ->
  l' <> l ->
  snapshot_of oref l l' ord w ->
  snapshot_of oref l l' ord (run_live_steps oref l ss w) /\
  notifs (broker w) `prefix_of` notifs (broker (run_live_steps oref l ss w)).
Proof.
  intros Hkeep Hne. revert w.
  induction ss as [|s ss IH]; intros w Hw; [now split|].
  unfold run_live_steps in *. cbn [fold_left].
  destruct (run_live_step_snapshot oref l l' ord s w Hkeep Hne Hw) as [Hw1 Hp1].
  destruct (IH _ Hw1) as [Hw2 Hp2].
  split; [exact Hw2|]. etransitivity; eassumption.
Qed.


End SharingTheory.

(** [backtrader]'s status methods assign [status], [broker] and
    [executed.dt] and nothing else. *)
Lemma Backtrader_status_methods_keep_shared t (m : method) o :
  transition_method (C := Backtrader.bt) t = Some m ->
  shared_part (snd (m o)) = shared_part o.
Proof.
  destruct t; intros [= <-]; cbn;
    unfold Backtrader.Order_submit, Backtrader.Order_accept,
      Backtrader.Order_reject, Backtrader.Order_cancel,
      Backtrader.Order_expire; cbn;
    repeat case_match; reflexivity.
Qed.

Import Run Run3.


